(** * The video grid reducer of the meeting app

    A shallow embedding of
    [apps/meeting/src/providers/VideoGridProvider/state.tsx]: the tile
    selection ([calculateVideoSourcesToBeRendered]), the downlink preferences
    ([updateDownlinkPreferences]) and the [reducer], with the store of the
    JavaScript objects the reducer mutates in place. *)

From Stdlib Require Import List Ascii String ZArith Lia Bool.
Import ListNotations.

Local Open Scope string_scope.
Local Open Scope list_scope.
Local Open Scope Z_scope.

Set Implicit Arguments.

(** ** JavaScript values the code relies on *)

(** Truthiness of a [string | null] value: [null] and the empty string are
    falsy. *)
Definition truthy (v : option string) : bool :=
  match v with
  | Some s => negb (s =? "")%string
  | None => false
  end.

(** [cond ? 1 : 0]. *)
Definition oneIf (cond : bool) : Z := if cond then 1 else 0.

(** [Number.MAX_SAFE_INTEGER], 2^53 - 1. *)
Definition MAX_SAFE_INTEGER : Z := 9007199254740991.

(** The largest length of a JavaScript array, 2^32 - 1. *)
Definition MAX_ARRAY_LENGTH : Z := 4294967295.

(** [array.includes(id)] on an array of strings. *)
Definition includes (array : list string) (id : string) : bool :=
  existsb (String.eqb id) array.

(** [array.slice(0, end)] for an integer [end]: a negative [end] counts from
    the end of the array, and the result never reaches past the array. *)
Definition slice0 {A : Type} (array : list A) (end_ : Z) : list A :=
  let len := Z.of_nat (List.length array) in
  let final := if end_ <? 0 then Z.max (len + end_) 0 else Z.min end_ len in
  firstn (Z.to_nat final) array.

(** [array.push(x)]. *)
Definition push {A : Type} (array : list A) (x : A) : list A := array ++ [x].

(** ** Objects used as maps

    [{ [attendeeId: string]: V }]: the own properties in insertion order, which
    is the order [Object.keys] and [Object.values] enumerate them in.  Keys are
    attendee ids: no key is a canonical array index (those enumerate first) and
    none names a property of [Object.prototype]. *)
Section JsObject.
Variable V : Type.

Definition JsObject : Type := list (string * V).

  (** [Object.keys(o)] *)
Definition keys (o : JsObject) : list string := map fst o.

  (** [Object.values(o)] *)
Definition values (o : JsObject) : list V := map snd o.

  (** [k in o] *)
Definition has (k : string) (o : JsObject) : bool :=
    existsb (fun e => (fst e =? k)%string) o.

  (** [o[k]], [None] for [undefined] *)
Fixpoint get (k : string) (o : JsObject) : option V :=
    match o with
    | [] => None
    | (k', v) :: rest => if (k' =? k)%string then Some v else get k rest
    end.

  (** [delete o[k]] *)
Definition delete (k : string) (o : JsObject) : JsObject :=
    filter (fun e => negb (fst e =? k)%string) o.

  (** [o[k].field = ...]: the entry at [k] is changed where it stands. *)
Definition update (k : string) (f : V -> V) (o : JsObject) : JsObject :=
    map (fun e => if (fst e =? k)%string then (fst e, f (snd e)) else e) o.

  (** [o[k] = v]: an existing key keeps its place, a new one goes last. *)
Definition put (k : string) (v : V) (o : JsObject) : JsObject :=
    if has k o then update k (fun _ => v) o else push o (k, v).

  (** [for (const v of Object.values(o)) { v.field = ... }] *)
Definition updateAll (f : V -> V) (o : JsObject) : JsObject :=
    map (fun e => (fst e, f (snd e))) o.
End JsObject.

(** ** The data model *)

(** Modelled from the spec: [VideoGridMode] is declared in [../../types], which
    is not among the sources; the spec gives its two members. *)
Inductive VideoGridMode : Type := GalleryView | FeaturedView.

(** Modelled from the spec: [TargetDisplaySize] belongs to the conferencing
    SDK; the reducer uses its members [High] and [Low]. *)
Inductive TargetDisplaySize : Type := Low | High.

Record GridState : Type := {
  mode : VideoGridMode;
  isZoomed : bool;
  threshold : Z
}.

Record AttendeeState : Type := {
  attendeeId : string;
  name : string;
  videoEnabled : bool;
  bandwidthConstrained : bool
}.

Definition AttendeeStates : Type := JsObject AttendeeState.

Record VideoSourceState : Type := {
  cameraSources : list string;
  activeSpeakersWithCameraSource : list string;
  contentShareId : option string;
  hasLocalVideo : bool;
  hasLocalContentSharing : bool
}.

Module VideoSourceWithType.
Record t : Type := { attendeeId : string; type : string }.
End VideoSourceWithType.

(** [new VideoPreference(attendeeId, priority, targetSize)] of the SDK. *)
Module VideoPreference.
Record t : Type := {
    attendeeId : string;
    priority : Z;
    targetSize : TargetDisplaySize
  }.

(** Modelled from the spec: [VideoPreference] belongs to the SDK; the spec
    gives a preference its three fields, and two preferences with the same
    three fields are the same element of the preference set. *)
Definition equals (a b : t) : bool :=
  (attendeeId a =? attendeeId b)%string
  && (priority a =? priority b)%Z
  && match targetSize a, targetSize b with
     | Low, Low | High, High => true
     | _, _ => false
     end.
End VideoPreference.

(** Modelled from the spec: the builder [VideoPreferences.prepare()] belongs to
    the SDK; the spec calls what it builds a set of VideoPreference.  [add]
    leaves the set as it is when it holds an equal preference already, and
    puts the preference last otherwise. *)
Module VideoPreferences.
Definition add (videoPreferences : list VideoPreference.t)
  (preference : VideoPreference.t) : list VideoPreference.t :=
  if existsb (VideoPreference.equals preference) videoPreferences
  then videoPreferences
  else push videoPreferences preference.
End VideoPreferences.

Module RosterAttendeeType.
Record t : Type := {
    chimeAttendeeId : string;
    externalUserId : option string;
    name : option string
  }.
End RosterAttendeeType.

Definition RosterType : Type := JsObject RosterAttendeeType.t.

(** [VideoSource] of the SDK: [{ attendee: { attendeeId, externalUserId } }]. *)
Module Attendee.
Record t : Type := { attendeeId : string; externalUserId : string }.
End Attendee.

Module VideoSource.
Record t : Type := { attendee : Attendee.t }.
End VideoSource.

(** Field assignments on the records. *)
Definition setName (n : string) (a : AttendeeState) : AttendeeState :=
  {| attendeeId := attendeeId a; name := n;
     videoEnabled := videoEnabled a;
     bandwidthConstrained := bandwidthConstrained a |}.

Definition setVideoEnabled (b : bool) (a : AttendeeState) : AttendeeState :=
  {| attendeeId := attendeeId a; name := name a;
     videoEnabled := b;
     bandwidthConstrained := bandwidthConstrained a |}.

Definition setBandwidthConstrained (b : bool) (a : AttendeeState)
  : AttendeeState :=
  {| attendeeId := attendeeId a; name := name a;
     videoEnabled := videoEnabled a;
     bandwidthConstrained := b |}.

Definition setMode (m : VideoGridMode) (g : GridState) : GridState :=
  {| mode := m; isZoomed := isZoomed g; threshold := threshold g |}.

Definition setIsZoomed (z : bool) (g : GridState) : GridState :=
  {| mode := mode g; isZoomed := z; threshold := threshold g |}.

Definition setCameraSources (l : list string) (v : VideoSourceState)
  : VideoSourceState :=
  {| cameraSources := l;
     activeSpeakersWithCameraSource := activeSpeakersWithCameraSource v;
     contentShareId := contentShareId v;
     hasLocalVideo := hasLocalVideo v;
     hasLocalContentSharing := hasLocalContentSharing v |}.

Definition setActiveSpeakersWithCameraSource (l : list string)
  (v : VideoSourceState) : VideoSourceState :=
  {| cameraSources := cameraSources v;
     activeSpeakersWithCameraSource := l;
     contentShareId := contentShareId v;
     hasLocalVideo := hasLocalVideo v;
     hasLocalContentSharing := hasLocalContentSharing v |}.

Definition setLocalSource (video sharing : bool) (shareId : option string)
  (v : VideoSourceState) : VideoSourceState :=
  {| cameraSources := cameraSources v;
     activeSpeakersWithCameraSource := activeSpeakersWithCameraSource v;
     contentShareId := shareId;
     hasLocalVideo := video;
     hasLocalContentSharing := sharing |}.

(** ** Tile selection and downlink preferences *)

Section VideoGrid.

(** [isContentShare(sourceId)] is
    [new DefaultModality(sourceId).hasModality(MODALITY_CONTENT)];
    [DefaultModality] belongs to the SDK, so the test is a parameter here. *)
Variable isContentShare : string -> bool.

(** The object literal [{ attendeeId, type }]. *)
Definition sourceWithType (attendeeId type : string) : VideoSourceWithType.t :=
  {| VideoSourceWithType.attendeeId := attendeeId;
     VideoSourceWithType.type := type |}.

(** [attendeeStates[attendeeId]?.videoEnabled] as a condition: an absent entry
    is falsy.  Where the code reads [attendeeStates[attendeeId].videoEnabled]
    the id comes from [Object.keys(attendeeStates)], so the entry is there. *)
Definition videoEnabledAt (attendeeId : string)
  (attendeeStates : AttendeeStates) : bool :=
  match get attendeeId attendeeStates with
  | Some attendee => videoEnabled attendee
  | None => false
  end.

Definition calculateVideoSourcesToBeRendered (gridState : GridState)
  (videoSourceState : VideoSourceState) (attendeeStates : AttendeeStates)
  : list VideoSourceWithType.t :=
  let hasLocalVideo := hasLocalVideo videoSourceState in
  let contentShareId := contentShareId videoSourceState in
  let activeSpeakersWithCameraSource :=
    activeSpeakersWithCameraSource videoSourceState in
  let cameraSources := cameraSources videoSourceState in
  (* First, add content share *)
  let videoSources :=
    fold_left
      (fun videoSources attendeeId =>
         if isContentShare attendeeId
            && videoEnabledAt attendeeId attendeeStates
         then push videoSources (sourceWithType attendeeId "contentShare")
         else videoSources)
      (keys attendeeStates) [] in
  (* Second, add active speakers *)
  let maximumNumberOfActiveSpeakers :=
    match mode gridState with
    | GalleryView => 1
    | FeaturedView => 4 - oneIf hasLocalVideo - oneIf (truthy contentShareId)
    end in
  let activeSpeakers :=
    if 0 <? Z.of_nat (List.length activeSpeakersWithCameraSource)
    then slice0 activeSpeakersWithCameraSource maximumNumberOfActiveSpeakers
    else [] in
  let videoSources :=
    videoSources
      ++ map (fun attendeeId => sourceWithType attendeeId "activeSpeaker")
           activeSpeakers in
  let commonSources :=
    if 0 <? Z.of_nat (List.length activeSpeakersWithCameraSource)
    then filter (fun id => negb (includes activeSpeakers id)) cameraSources
    else cameraSources in
  (* Last, add common video sources *)
  let gridSize :=
    match mode gridState with
    | GalleryView =>
        if isZoomed gridState then threshold gridState else MAX_SAFE_INTEGER
    | FeaturedView => 4
    end in
  let numberOfAvailableTiles :=
    gridSize - oneIf hasLocalVideo - oneIf (truthy contentShareId)
      - Z.of_nat (List.length activeSpeakers) in
  videoSources
    ++ map (fun attendeeId => sourceWithType attendeeId "common")
         (slice0 commonSources numberOfAvailableTiles).

(** The preference set [updateDownlinkPreferences] builds and hands to
    [priorityBasedPolicy.chooseRemoteVideoSources]: its elements in the order
    they were first added. *)
Definition updateDownlinkPreferences (gridState : GridState)
  (videoSourceState : VideoSourceState) (attendeeStates : AttendeeStates)
  : list VideoPreference.t :=
  let videoSourcesToBeRendered :=
    calculateVideoSourcesToBeRendered gridState videoSourceState
      attendeeStates in
  let numberOfTiles :=
    Z.of_nat (List.length videoSourcesToBeRendered)
      + oneIf (hasLocalVideo videoSourceState) in
  let targetDisplaySize :=
    if numberOfTiles <=? threshold gridState then High else Low in
  fold_left
    (fun videoPreferences videoSource =>
       let attendeeId := VideoSourceWithType.attendeeId videoSource in
       let type := VideoSourceWithType.type videoSource in
       (* Prioritize Content Share *)
       let videoPreferences :=
         if (type =? "contentShare")%string
         then VideoPreferences.add videoPreferences
                (VideoPreference.Build_t attendeeId 1 High)
         else videoPreferences in
       (* Prioritize Active Speakers *)
       let videoPreferences :=
         if (type =? "activeSpeaker")%string
         then VideoPreferences.add videoPreferences
                (VideoPreference.Build_t attendeeId 1
                   match mode gridState with
                   | FeaturedView => High
                   | GalleryView => targetDisplaySize
                   end)
         else videoPreferences in
       (* Set the common tiles to low priority *)
       if (type =? "common")%string
       then VideoPreferences.add videoPreferences
              (VideoPreference.Build_t attendeeId 2 targetDisplaySize)
       else videoPreferences)
    videoSourcesToBeRendered [].

End VideoGrid.

(** ** The store

    The reducer assigns to the fields of the objects its state refers to and
    wraps the same objects in a new top-level record, so the objects are kept in
    a store and a [State] holds references into it.  Attendee entries and
    arrays are held by value: the reducer never keeps a second reference to
    one. *)

Definition ref : Type := nat.

Record State : Type := {
  gridState : ref;
  attendeeStates : ref;
  videoSourceState : ref
}.

Record Store : Type := {
  gridStateObjects : ref -> GridState;
  attendeeStatesObjects : ref -> AttendeeStates;
  videoSourceStateObjects : ref -> VideoSourceState;
  (** the preference set [priorityBasedPolicy] was last given, if any *)
  chosenRemoteVideoSources : option (list VideoPreference.t)
}.

(** Writing the object at a reference. *)
Definition assign {A : Type} (r : ref) (object : A) (objects : ref -> A)
  : ref -> A :=
  fun r' => if Nat.eqb r' r then object else objects r'.

Definition writeGridState (r : ref) (g : GridState) (store : Store) : Store :=
  {| gridStateObjects := assign r g (gridStateObjects store);
     attendeeStatesObjects := attendeeStatesObjects store;
     videoSourceStateObjects := videoSourceStateObjects store;
     chosenRemoteVideoSources := chosenRemoteVideoSources store |}.

Definition writeAttendeeStates (r : ref) (a : AttendeeStates) (store : Store)
  : Store :=
  {| gridStateObjects := gridStateObjects store;
     attendeeStatesObjects := assign r a (attendeeStatesObjects store);
     videoSourceStateObjects := videoSourceStateObjects store;
     chosenRemoteVideoSources := chosenRemoteVideoSources store |}.

Definition writeVideoSourceState (r : ref) (v : VideoSourceState)
  (store : Store) : Store :=
  {| gridStateObjects := gridStateObjects store;
     attendeeStatesObjects := attendeeStatesObjects store;
     videoSourceStateObjects := assign r v (videoSourceStateObjects store);
     chosenRemoteVideoSources := chosenRemoteVideoSources store |}.

(** [priorityBasedPolicy.chooseRemoteVideoSources(preferences)]: the policy
    takes the set in place of the one it had (and does not throw). *)
Definition chooseRemoteVideoSources (preferences : list VideoPreference.t)
  (store : Store) : Store :=
  {| gridStateObjects := gridStateObjects store;
     attendeeStatesObjects := attendeeStatesObjects store;
     videoSourceStateObjects := videoSourceStateObjects store;
     chosenRemoteVideoSources := Some preferences |}.

(** The three objects a state refers to, as the store holds them. *)
Definition gridStateOf (store : Store) (state : State) : GridState :=
  gridStateObjects store (gridState state).

Definition attendeeStatesOf (store : Store) (state : State) : AttendeeStates :=
  attendeeStatesObjects store (attendeeStates state).

Definition videoSourceStateOf (store : Store) (state : State)
  : VideoSourceState :=
  videoSourceStateObjects store (videoSourceState state).

(** The values the [initialState] literal is written with. *)
Definition defaultGridState : GridState :=
  {| mode := GalleryView; isZoomed := false; threshold := 8 |}.

Definition defaultVideoSourceState : VideoSourceState :=
  {| cameraSources := [];
     activeSpeakersWithCameraSource := [];
     contentShareId := None;
     hasLocalVideo := false;
     hasLocalContentSharing := false |}.

(** The exported constant [initialState]: one record, made once when the module
    is loaded, referring to three objects made with it. *)
Definition initialState : State :=
  {| gridState := 0%nat; attendeeStates := 0%nat; videoSourceState := 0%nat |}.

(** The store when the module has been loaded: the objects of [initialState]
    hold the literal's values (and so does every object not yet written). *)
Definition storeAtLoad : Store :=
  {| gridStateObjects := fun _ => defaultGridState;
     attendeeStatesObjects := fun _ => [];
     videoSourceStateObjects := fun _ => defaultVideoSourceState;
     chosenRemoteVideoSources := None |}.

(** ** Actions *)

(** The numeric enum [VideoGridAction]. *)
Module VideoGridAction.
Definition ResetVideoGridState : Z := 0.
Definition UpdateAttendeeStates : Z := 1.
Definition UpdateVideoSources : Z := 2.
Definition UpdateActiveSpeakers : Z := 3.
Definition UpdateLocalSourceState : Z := 4.
Definition UpdateGridState : Z := 5.
Definition PauseVideoTile : Z := 6.
Definition UnpauseVideoTile : Z := 7.
Definition ZoomIn : Z := 8.
Definition ZoomOut : Z := 9.
End VideoGridAction.

(** The payload object: each case of the reducer reads the properties it
    destructures and no other. *)
Module Payload.
Record t : Type := {
  roster : RosterType;
  videoSources : list VideoSource.t;
  activeSpeakers : list string;
  isVideoEnabled : bool;
  localAttendeeId : option string;
  isLocalUserSharing : bool;
  sharingAttendeeId : option string;
  videoGridMode : VideoGridMode;
  attendeeId : string
}.

Definition empty : t :=
  {| roster := []; videoSources := []; activeSpeakers := [];
     isVideoEnabled := false; localAttendeeId := None;
     isLocalUserSharing := false; sharingAttendeeId := None;
     videoGridMode := GalleryView; attendeeId := "" |}.
End Payload.

Record Action : Type := { type : Z; payload : Payload.t }.

(** The ten members of the union type [Action]. *)
Definition ResetVideoGridState : Action :=
  {| type := VideoGridAction.ResetVideoGridState; payload := Payload.empty |}.

Definition UpdateAttendeeStates (roster : RosterType) : Action :=
  {| type := VideoGridAction.UpdateAttendeeStates;
     payload :=
       Payload.Build_t roster [] [] false None false None GalleryView "" |}.

Definition UpdateVideoSources (videoSources : list VideoSource.t) : Action :=
  {| type := VideoGridAction.UpdateVideoSources;
     payload :=
       Payload.Build_t [] videoSources [] false None false None GalleryView
         "" |}.

Definition UpdateActiveSpeakers (activeSpeakers : list string) : Action :=
  {| type := VideoGridAction.UpdateActiveSpeakers;
     payload :=
       Payload.Build_t [] [] activeSpeakers false None false None GalleryView
         "" |}.

Definition UpdateLocalSourceState (isVideoEnabled : bool)
  (localAttendeeId : option string) (isLocalUserSharing : bool)
  (sharingAttendeeId : option string) : Action :=
  {| type := VideoGridAction.UpdateLocalSourceState;
     payload :=
       Payload.Build_t [] [] [] isVideoEnabled localAttendeeId
         isLocalUserSharing sharingAttendeeId GalleryView "" |}.

Definition UpdateGridState (videoGridMode : VideoGridMode) : Action :=
  {| type := VideoGridAction.UpdateGridState;
     payload :=
       Payload.Build_t [] [] [] false None false None videoGridMode "" |}.

Definition PauseVideoTile (attendeeId : string) : Action :=
  {| type := VideoGridAction.PauseVideoTile;
     payload :=
       Payload.Build_t [] [] [] false None false None GalleryView attendeeId |}.

Definition UnpauseVideoTile (attendeeId : string) : Action :=
  {| type := VideoGridAction.UnpauseVideoTile;
     payload :=
       Payload.Build_t [] [] [] false None false None GalleryView attendeeId |}.

Definition ZoomIn : Action :=
  {| type := VideoGridAction.ZoomIn; payload := Payload.empty |}.

Definition ZoomOut : Action :=
  {| type := VideoGridAction.ZoomOut; payload := Payload.empty |}.

(** ** Completions *)

Inductive JsError : Type :=
| TypeError
| Error (message : string).

(** A call returns a value or throws. *)
Inductive Completion (A : Type) : Type :=
| Return (value : A)
| Throw (error : JsError).

Arguments Return {A} value.
Arguments Throw {A} error.

(** ** The reducer *)

Section Reducer.

Variable isContentShare : string -> bool.

(** [updateDownlinkPreferences(gridState, videoSourceState, attendeeStates)] on
    the objects of a state, with its call of the policy. *)
Definition pushDownlinkPreferences (state : State) (store : Store) : Store :=
  chooseRemoteVideoSources
    (updateDownlinkPreferences isContentShare (gridStateOf store state)
       (videoSourceStateOf store state) (attendeeStatesOf store state))
    store.

(** [roster[attendeeId]?.name || ''] *)
Definition rosterName (roster : RosterType) (attendeeId : string) : string :=
  match get attendeeId roster with
  | Some attendee =>
      match RosterAttendeeType.name attendee with
      | Some n => n
      | None => ""
      end
  | None => ""
  end.

(** Remove attendee that left the meeting *)
Definition removeLeftAttendees (roster : RosterType)
  (attendeeStates : AttendeeStates) : AttendeeStates :=
  fold_left
    (fun attendeeStates attendeeId =>
       if negb (isContentShare attendeeId) && negb (has attendeeId roster)
       then delete attendeeId attendeeStates
       else attendeeStates)
    (keys attendeeStates) attendeeStates.

(** Add attendee that joined the meeting *)
Definition addJoinedAttendees (roster : RosterType)
  (attendeeStates : AttendeeStates) : AttendeeStates :=
  fold_left
    (fun attendeeStates attendeeId =>
       let name := rosterName roster attendeeId in
       if has attendeeId attendeeStates
       then update attendeeId (setName name) attendeeStates
       else put attendeeId
              {| attendeeId := attendeeId; name := name;
                 videoEnabled := false; bandwidthConstrained := false |}
              attendeeStates)
    (keys roster) attendeeStates.

(** Ensure the state of [videoEnabled] in the racing condition of
    UpdateAttendeeStates and UpdateVideoSources *)
Definition ensureVideoEnabled (cameraSources : list string)
  (attendeeStates : AttendeeStates) : AttendeeStates :=
  fold_left
    (fun attendeeStates attendeeId =>
       if has attendeeId attendeeStates
       then update attendeeId (setVideoEnabled true) attendeeStates
       else attendeeStates)
    cameraSources attendeeStates.

(** Remove content share from attendeeStates, if content share is not in video
    sources *)
Definition removeStaleContentShare (videoSourceIds : list string)
  (attendeeStates : AttendeeStates) : AttendeeStates :=
  fold_left
    (fun attendeeStates attendeeId =>
       if isContentShare attendeeId && negb (includes videoSourceIds attendeeId)
       then delete attendeeId attendeeStates
       else attendeeStates)
    (keys attendeeStates) attendeeStates.

(** Update the [videoEnabled] according to video sources.  A new entry is
    written without [videoEnabled]; the assignment that follows sets it. *)
Definition enableVideoSources (videoSourceIds : list string)
  (attendeeStates : AttendeeStates) : AttendeeStates :=
  fold_left
    (fun attendeeStates attendeeId =>
       let attendeeStates :=
         if negb (has attendeeId attendeeStates)
         then
           if isContentShare attendeeId
           then put attendeeId
                  {| attendeeId := attendeeId; name := "content share";
                     videoEnabled := false; bandwidthConstrained := false |}
                  attendeeStates
           else put attendeeId
                  {| attendeeId := attendeeId; name := "";
                     videoEnabled := false; bandwidthConstrained := false |}
                  attendeeStates
         else attendeeStates in
       update attendeeId (setVideoEnabled true) attendeeStates)
    videoSourceIds attendeeStates.

(** Populate the [cameraSources] based on the order of attendeeStates *)
Definition populateCameraSources (attendeeStates : AttendeeStates)
  : list string :=
  fold_left
    (fun cameraSources attendee =>
       if videoEnabled attendee && negb (isContentShare (attendeeId attendee))
       then push cameraSources (attendeeId attendee)
       else cameraSources)
    (values attendeeStates) [].

(** The loop of the UpdateActiveSpeakers case. *)
Definition speakersWithCameraSource (activeSpeakers cameraSources : list string)
  (attendeeStates : AttendeeStates) : list string :=
  fold_left
    (fun activeSpeakersWithCameraSource attendeeId =>
       if videoEnabledAt attendeeId attendeeStates
          && includes cameraSources attendeeId
       then push activeSpeakersWithCameraSource attendeeId
       else activeSpeakersWithCameraSource)
    activeSpeakers [].

(** [reducer(state, { type, payload })].  The state returned by every case but
    the first is [{ ...state, ... }] with the objects [state] already refers
    to: a record with the references of [state]. *)
Definition reducer (store : Store) (state : State) (action : Action)
  : Completion (Store * State) :=
  let type := type action in
  let payload := payload action in
  (* the objects [state] refers to, and their contents *)
  let gridStateRef := gridState state in
  let attendeeStatesRef := attendeeStates state in
  let videoSourceStateRef := videoSourceState state in
  let gridState := gridStateOf store state in
  let attendeeStates := attendeeStatesOf store state in
  let videoSourceState := videoSourceStateOf store state in
  if type =? VideoGridAction.ResetVideoGridState then
    Return (store, initialState)
  else if type =? VideoGridAction.UpdateAttendeeStates then
    let roster := Payload.roster payload in
    let attendeeStates := removeLeftAttendees roster attendeeStates in
    let attendeeStates := addJoinedAttendees roster attendeeStates in
    let attendeeStates :=
      ensureVideoEnabled (cameraSources videoSourceState) attendeeStates in
    Return (writeAttendeeStates attendeeStatesRef attendeeStates store, state)
  else if type =? VideoGridAction.UpdateVideoSources then
    let videoSourceIds :=
      map (fun videoSource =>
             Attendee.attendeeId (VideoSource.attendee videoSource))
        (Payload.videoSources payload) in
    (* Reset the [videoEnabled] of all attendeeStates *)
    let attendeeStates := updateAll (setVideoEnabled false) attendeeStates in
    let attendeeStates :=
      removeStaleContentShare videoSourceIds attendeeStates in
    let attendeeStates := enableVideoSources videoSourceIds attendeeStates in
    let cameraSources := populateCameraSources attendeeStates in
    let store :=
      writeAttendeeStates attendeeStatesRef attendeeStates store in
    let store :=
      writeVideoSourceState videoSourceStateRef
        (setCameraSources cameraSources videoSourceState) store in
    Return (pushDownlinkPreferences state store, state)
  else if type =? VideoGridAction.UpdateActiveSpeakers then
    let activeSpeakersWithCameraSource :=
      speakersWithCameraSource (Payload.activeSpeakers payload)
        (cameraSources videoSourceState) attendeeStates in
    let store :=
      writeVideoSourceState videoSourceStateRef
        (setActiveSpeakersWithCameraSource activeSpeakersWithCameraSource
           videoSourceState) store in
    Return (pushDownlinkPreferences state store, state)
  else if type =? VideoGridAction.UpdateLocalSourceState then
    let isVideoEnabled := Payload.isVideoEnabled payload in
    let localAttendeeId := Payload.localAttendeeId payload in
    let store :=
      writeVideoSourceState videoSourceStateRef
        (setLocalSource isVideoEnabled (Payload.isLocalUserSharing payload)
           (Payload.sharingAttendeeId payload) videoSourceState) store in
    let store :=
      match localAttendeeId with
      | Some id =>
          if truthy localAttendeeId && has id attendeeStates
          then writeAttendeeStates attendeeStatesRef
                 (update id (setVideoEnabled isVideoEnabled) attendeeStates)
                 store
          else store
      | None => store
      end in
    Return (pushDownlinkPreferences state store, state)
  else if type =? VideoGridAction.UpdateGridState then
    let store :=
      writeGridState gridStateRef
        (setMode (Payload.videoGridMode payload) gridState) store in
    Return (pushDownlinkPreferences state store, state)
  else if type =? VideoGridAction.PauseVideoTile then
    let attendeeId := Payload.attendeeId payload in
    match get attendeeId attendeeStates with
    | None => Throw TypeError
    | Some _ =>
        Return (writeAttendeeStates attendeeStatesRef
                  (update attendeeId (setBandwidthConstrained true)
                     attendeeStates) store,
                state)
    end
  else if type =? VideoGridAction.UnpauseVideoTile then
    let attendeeId := Payload.attendeeId payload in
    match get attendeeId attendeeStates with
    | None => Throw TypeError
    | Some _ =>
        Return (writeAttendeeStates attendeeStatesRef
                  (update attendeeId (setBandwidthConstrained false)
                     attendeeStates) store,
                state)
    end
  else if type =? VideoGridAction.ZoomIn then
    let numberOfTiles :=
      Z.of_nat (List.length (cameraSources videoSourceState))
        + oneIf (hasLocalVideo videoSourceState) in
    if threshold gridState <? numberOfTiles then
      let store :=
        writeGridState gridStateRef (setIsZoomed true gridState)
          store in
      Return (pushDownlinkPreferences state store, state)
    else Return (store, state)
  else if type =? VideoGridAction.ZoomOut then
    if isZoomed gridState then
      let store :=
        writeGridState gridStateRef (setIsZoomed false gridState)
          store in
      Return (pushDownlinkPreferences state store, state)
    else Return (store, state)
  else Throw (Error "Incorrect type in VideoGridStateProvider").

End Reducer.

(** Modelled from the spec: [DefaultModality] belongs to the SDK.  A source id
    carries the content modality when it reads [base#content]: split at the
    separator [#] it has two components and the second is [content]. *)
Fixpoint splitAtSeparator (current : string) (s : string) : list string :=
  match s with
  | EmptyString => [current]
  | String c rest =>
      if Ascii.eqb c "#"%char
      then current :: splitAtSeparator "" rest
      else splitAtSeparator (current ++ String c "")%string rest
  end.

Definition hasContentModality (sourceId : string) : bool :=
  match splitAtSeparator "" sourceId with
  | [_; modality] => (modality =? "content")%string
  | _ => false
  end.

(** ** Vocabulary of the properties *)

(** The number of selected tiles of one type. *)
Definition countType (type : string) (tiles : list VideoSourceWithType.t)
  : nat :=
  List.length
    (filter (fun tile => (VideoSourceWithType.type tile =? type)%string) tiles).

(** The target resolution as the specification words it: High while the number
    of selected tiles, plus one for local video, is within the threshold. *)
Definition computedTarget (selected : nat) (hasLocalVideo : bool)
  (threshold : Z) : TargetDisplaySize :=
  if Z.of_nat selected + oneIf hasLocalVideo <=? threshold then High else Low.

(** The preference the specification gives a tile. *)
Inductive PreferenceFor (mode : VideoGridMode) (target : TargetDisplaySize)
  : VideoSourceWithType.t -> VideoPreference.t -> Prop :=
| contentSharePreference : forall id,
    PreferenceFor mode target (sourceWithType id "contentShare")
      (VideoPreference.Build_t id 1 High)
| featuredSpeakerPreference : forall id,
    mode = FeaturedView ->
    PreferenceFor mode target (sourceWithType id "activeSpeaker")
      (VideoPreference.Build_t id 1 High)
| gallerySpeakerPreference : forall id,
    mode = GalleryView ->
    PreferenceFor mode target (sourceWithType id "activeSpeaker")
      (VideoPreference.Build_t id 1 target)
| commonPreference : forall id,
    PreferenceFor mode target (sourceWithType id "common")
      (VideoPreference.Build_t id 2 target).

(** The parts of a selection, read off [calculateVideoSourcesToBeRendered]. *)
Definition contentShareIds (isContentShare : string -> bool)
  (attendeeStates : AttendeeStates) : list string :=
  filter
    (fun attendeeId =>
       isContentShare attendeeId && videoEnabledAt attendeeId attendeeStates)
    (keys attendeeStates).

Definition activeSpeakerIds (gridState : GridState)
  (videoSourceState : VideoSourceState) : list string :=
  if 0 <? Z.of_nat
            (List.length (activeSpeakersWithCameraSource videoSourceState))
  then slice0 (activeSpeakersWithCameraSource videoSourceState)
         match mode gridState with
         | GalleryView => 1
         | FeaturedView =>
             4 - oneIf (hasLocalVideo videoSourceState)
               - oneIf (truthy (contentShareId videoSourceState))
         end
  else [].

Definition commonPool (gridState : GridState)
  (videoSourceState : VideoSourceState) : list string :=
  if 0 <? Z.of_nat
            (List.length (activeSpeakersWithCameraSource videoSourceState))
  then filter
         (fun id =>
            negb (includes (activeSpeakerIds gridState videoSourceState) id))
         (cameraSources videoSourceState)
  else cameraSources videoSourceState.

Definition availableTiles (gridState : GridState)
  (videoSourceState : VideoSourceState) : Z :=
  match mode gridState with
  | GalleryView =>
      if isZoomed gridState then threshold gridState else MAX_SAFE_INTEGER
  | FeaturedView => 4
  end - oneIf (hasLocalVideo videoSourceState)
    - oneIf (truthy (contentShareId videoSourceState))
    - Z.of_nat (List.length (activeSpeakerIds gridState videoSourceState)).

(** The three loops of the UpdateVideoSources case on the attendee map. *)
Definition reconcileVideoSources (isContentShare : string -> bool)
  (videoSourceIds : list string) (attendeeStates : AttendeeStates)
  : AttendeeStates :=
  enableVideoSources isContentShare videoSourceIds
    (removeStaleContentShare isContentShare videoSourceIds
       (updateAll (setVideoEnabled false) attendeeStates)).

(** The ids of a list of video sources. *)
Definition videoSourceIdsOf (videoSources : list VideoSource.t) : list string :=
  map (fun videoSource =>
         Attendee.attendeeId (VideoSource.attendee videoSource))
    videoSources.

(** *** Scenario A of the specification *)

Definition scenarioIds : list string :=
  ["a"; "b"; "c"; "d"; "e"; "f"; "g"; "h"; "i"; "j"].

Definition scenarioGridState (zoomed : bool) : GridState :=
  {| mode := GalleryView; isZoomed := zoomed; threshold := 8 |}.

Definition scenarioVideoSourceState : VideoSourceState :=
  {| cameraSources := scenarioIds;
     activeSpeakersWithCameraSource := ["c"];
     contentShareId := None;
     hasLocalVideo := false;
     hasLocalContentSharing := false |}.

Definition enabledAttendee (id : string) : string * AttendeeState :=
  (id, {| attendeeId := id; name := ""; videoEnabled := true;
          bandwidthConstrained := false |}).

Definition scenarioAttendeeStates : AttendeeStates :=
  map enabledAttendee scenarioIds.

(** The selection scenario A expects. *)
Definition scenarioExpectedTiles : list VideoSourceWithType.t :=
  sourceWithType "c" "activeSpeaker"
    :: map (fun id => sourceWithType id "common")
         ["a"; "b"; "d"; "e"; "f"; "g"; "h"].

(** Dispatching a sequence of actions, each on the state the one before
    returned; a throw ends the sequence. *)
Fixpoint dispatchAll (isContentShare : string -> bool) (store : Store)
  (state : State) (actions : list Action) : Completion (Store * State) :=
  match actions with
  | [] => Return (store, state)
  | action :: rest =>
      match reducer isContentShare store state action with
      | Return (store', state') => dispatchAll isContentShare store' state' rest
      | Throw error => Throw error
      end
  end.

(** The video source of an attendee. *)
Definition videoSourceOf (id : string) : VideoSource.t :=
  {| VideoSource.attendee :=
       {| Attendee.attendeeId := id; Attendee.externalUserId := id |} |}.

(** Ten cameras and a content share arrive as video sources; the user then
    switches to the featured view, or zooms in. *)
Definition sharedMeetingSources : list VideoSource.t :=
  map videoSourceOf ("cs#content" :: scenarioIds).

(** Scenario C of the specification. *)
Definition scenarioCGridState : GridState :=
  {| mode := FeaturedView; isZoomed := false; threshold := 8 |}.

Definition scenarioCVideoSourceState : VideoSourceState :=
  {| cameraSources := ["x"; "y"; "z"];
     activeSpeakersWithCameraSource := ["x"; "y"; "z"];
     contentShareId := Some "cs#content";
     hasLocalVideo := true;
     hasLocalContentSharing := false |}.

Definition scenarioCAttendeeStates : AttendeeStates :=
  map enabledAttendee ["cs#content"; "x"; "y"; "z"].

(** *** Invariants of the store *)

(** An attendee map as the reducer builds it: no key twice, and every entry
    filed under its own [attendeeId]. *)
Definition keyedById (attendeeStates : AttendeeStates) : Prop :=
  NoDup (keys attendeeStates)
  /\ Forall (fun e => attendeeId (snd e) = fst e) attendeeStates.

Definition StoreKeyedById (store : Store) : Prop :=
  forall r, keyedById (attendeeStatesObjects store r).

(** No content share among the camera sources of any object. *)
Definition CamerasOnly (isContentShare : string -> bool) (store : Store)
  : Prop :=
  forall r,
    Forall (fun id => isContentShare id = false)
      (cameraSources (videoSourceStateObjects store r)).

(** The policy was never called, or holds the preferences of the objects the
    state refers to. *)
Definition PolicyCurrent (isContentShare : string -> bool) (store : Store)
  (state : State) : Prop :=
  chosenRemoteVideoSources store = None
  \/ chosenRemoteVideoSources store
     = Some (updateDownlinkPreferences isContentShare (gridStateOf store state)
               (videoSourceStateOf store state) (attendeeStatesOf store state)).

(** The cases of the reducer that return, one goal each. *)
Ltac reducer_cases H :=
  unfold reducer in H; cbv zeta in H;
  repeat match type of H with
         | context [Z.eqb ?t ?n] => destruct (Z.eqb_spec t n)
         end;
  repeat match type of H with
         | context [match get ?k ?o with _ => _ end] => destruct (get k o) eqn:?
         | context [if Z.ltb ?a ?b then _ else _] => destruct (Z.ltb_spec a b)
         | context [if isZoomed ?g then _ else _] => destruct (isZoomed g) eqn:?
         | context [match Payload.localAttendeeId ?p with _ => _ end] =>
             destruct (Payload.localAttendeeId p) eqn:?
         | context [if ?c && has ?k ?o then _ else _] =>
             destruct (c && has k o) eqn:?
         end;
  try discriminate H;
  inversion H; subst; clear H.

(** *** A meeting, for the examples *)

(** The store a dispatch returned (the loaded store if it threw). *)
Definition storeOf (completion : Completion (Store * State)) : Store :=
  match completion with
  | Return (store, _) => store
  | Throw _ => storeAtLoad
  end.

(** The video sources of the shared meeting have arrived. *)
Definition storeAfterSharedMeeting : Store :=
  storeOf
    (reducer hasContentModality storeAtLoad initialState
       (UpdateVideoSources sharedMeetingSources)).

(** The user then zooms in: ten cameras are more than the threshold. *)
Definition storeAfterZoomIn : Store :=
  storeOf
    (reducer hasContentModality storeAfterSharedMeeting initialState ZoomIn).

(** Or a roster arrives: a and b stay, k joins, the others have left. *)
Definition meetingRoster : RosterType :=
  [("a", {| RosterAttendeeType.chimeAttendeeId := "a";
            RosterAttendeeType.externalUserId := None;
            RosterAttendeeType.name := Some "Alice" |});
   ("b", {| RosterAttendeeType.chimeAttendeeId := "b";
            RosterAttendeeType.externalUserId := None;
            RosterAttendeeType.name := None |});
   ("k", {| RosterAttendeeType.chimeAttendeeId := "k";
            RosterAttendeeType.externalUserId := None;
            RosterAttendeeType.name := Some "Kim" |})].

Definition storeAfterRoster : Store :=
  storeOf
    (reducer hasContentModality storeAfterSharedMeeting initialState
       (UpdateAttendeeStates meetingRoster)).

(** Or the user switches to the featured view, and the active speakers then
    arrive with the id of a twice. *)
Definition storeAfterRepeatedSpeaker : Store :=
  storeOf
    (dispatchAll hasContentModality storeAfterSharedMeeting initialState
       [UpdateGridState FeaturedView; UpdateActiveSpeakers ["a"; "a"]]).

(** ** The chat messages provider

    [processChannelMessage] of
    [apps/chat/src/providers/ChatMessagesProvider/index.jsx]. *)

(** A channel message as the function reads it: a message the user sent
    carries the service's answer in [response], one received carries its own
    [MessageId]; [Content] stands for the properties the function does not
    read. *)
Module ChannelMessage.
Record Response : Type := { responseMessageId : option string }.

Record t : Type := {
  response : option Response;
  MessageId : option string;
  Persistence : option string;
  Content : string
}.
End ChannelMessage.

(** A message received from the channel. *)
Definition receivedMessage (id content : string) : ChannelMessage.t :=
  {| ChannelMessage.response := None;
     ChannelMessage.MessageId := Some id;
     ChannelMessage.Persistence := Some "PERSISTENT";
     ChannelMessage.Content := content |}.

(** A message the user sent, with the answer of the service. *)
Definition sentMessage (id content : string) : ChannelMessage.t :=
  {| ChannelMessage.response :=
       Some {| ChannelMessage.responseMessageId := Some id |};
     ChannelMessage.MessageId := None;
     ChannelMessage.Persistence := None;
     ChannelMessage.Content := content |}.

(** [a === b] on values that are strings or [undefined]. *)
Definition strictEquals (a b : option string) : bool :=
  match a, b with
  | Some x, Some y => (x =? y)%string
  | None, None => true
  | _, _ => false
  end.

(** [m.response?.MessageId || m.MessageId] *)
Definition messageIdOf (m : ChannelMessage.t) : option string :=
  let responseId :=
    match ChannelMessage.response m with
    | Some r => ChannelMessage.responseMessageId r
    | None => None
    end in
  if truthy responseId then responseId else ChannelMessage.MessageId m.

(** The test of the [forEach] of [processChannelMessage], and what the loop
    leaves at the index of a message. *)
Definition isCopyOf (newMessage m : ChannelMessage.t) : bool :=
  strictEquals (messageIdOf m) (ChannelMessage.MessageId newMessage).

Definition replacedBy (newMessage m : ChannelMessage.t) : ChannelMessage.t :=
  if isCopyOf newMessage m then newMessage else m.

(** [processChannelMessage(message)] once the awaited promise has resolved, on
    the array [messagesRef.current] holds then.  The result is that array after
    the [forEach], which writes [self[i] = newMessage] in place, and the array
    given to [setMessages]. *)
Definition processChannelMessage (current : list ChannelMessage.t)
  (newMessage : ChannelMessage.t)
  : list ChannelMessage.t * list ChannelMessage.t :=
  let '(isDuplicate, current) :=
    fold_left
      (fun '(isDuplicate, self) m =>
         if strictEquals (messageIdOf m) (ChannelMessage.MessageId newMessage)
         then (true, push self newMessage)
         else (isDuplicate, push self m))
      current (false, []) in
  let newMessages := current in
  let newMessages :=
    if negb isDuplicate
       && strictEquals (ChannelMessage.Persistence newMessage)
            (Some "PERSISTENT")
    then push newMessages newMessage
    else newMessages in
  (current, newMessages).

(** ** Lists and objects *)

Lemma fold_left_push_filter (A B : Type) (p : A -> bool) (f : A -> B)
  (l : list A) (init : list B) :
  fold_left (fun acc x => if p x then push acc (f x) else acc) l init
  = init ++ map f (filter p l).
Proof.
  revert init.
  induction l as [|x l IH]; intros init; simpl.
  - now rewrite app_nil_r.
  - rewrite IH. destruct (p x); simpl.
    + unfold push. now rewrite <- app_assoc.
    + reflexivity.
Qed.

Lemma slice0_length_le (A : Type) (l : list A) (n : Z) :
  0 <= n -> Z.of_nat (List.length (slice0 l n)) <= n.
Proof.
  intros Hn. unfold slice0.
  destruct (Z.ltb_spec n 0) as [Hlt|_]; [lia|].
  rewrite length_firstn. lia.
Qed.

Lemma slice0_all (A : Type) (l : list A) (n : Z) :
  Z.of_nat (List.length l) <= n -> slice0 l n = l.
Proof.
  intros Hn. unfold slice0.
  destruct (Z.ltb_spec n 0) as [Hlt|_]; [lia|].
  apply firstn_all2. lia.
Qed.

Lemma slice0_length_bound (A : Type) (l : list A) (n : Z) :
  (List.length (slice0 l n) <= List.length l)%nat.
Proof.
  unfold slice0. rewrite length_firstn. lia.
Qed.

Lemma VideoPreference_equals_eq (a b : VideoPreference.t) :
  VideoPreference.equals a b = true <-> a = b.
Proof.
  destruct a as [ida pa sa], b as [idb pb sb].
  unfold VideoPreference.equals. simpl.
  rewrite !andb_true_iff, String.eqb_eq, Z.eqb_eq.
  split.
  - intros [[-> ->] Hs]. now destruct sa, sb.
  - intros H. inversion H. subst. now destruct sb.
Qed.

Lemma includes_In (l : list string) (id : string) :
  includes l id = true <-> In id l.
Proof.
  unfold includes. rewrite existsb_exists. split.
  - intros [x [Hx Heq]]. apply String.eqb_eq in Heq. now subst.
  - intros H. exists id. split; [assumption | apply String.eqb_refl].
Qed.

Lemma includes_app (l1 l2 : list string) (id : string) :
  includes (l1 ++ l2) id = includes l1 id || includes l2 id.
Proof. unfold includes. apply existsb_app. Qed.

Lemma filter_filter_andb (A : Type) (f g : A -> bool) (l : list A) :
  filter f (filter g l) = filter (fun x => g x && f x) l.
Proof.
  induction l as [|x l IH]; simpl; [reflexivity|].
  destruct (g x); simpl; [destruct (f x)|]; now rewrite IH.
Qed.

Lemma filter_all (A : Type) (f : A -> bool) (l : list A) :
  Forall (fun x => f x = true) l -> filter f l = l.
Proof.
  induction 1 as [|x l Hx _ IH]; simpl; [reflexivity|].
  now rewrite Hx, IH.
Qed.

Lemma filter_none (A : Type) (f : A -> bool) (l : list A) :
  Forall (fun x => f x = false) l -> filter f l = [].
Proof.
  induction 1 as [|x l Hx _ IH]; simpl; [reflexivity|].
  now rewrite Hx.
Qed.

(** ** The selection *)

Section Selection.

Variable isContentShare : string -> bool.

(** The selection is the content shares, then the active speakers, then the
    common tiles that fit. *)
Lemma calculateVideoSourcesToBeRendered_parts (gridState : GridState)
  (videoSourceState : VideoSourceState) (attendeeStates : AttendeeStates) :
  calculateVideoSourcesToBeRendered isContentShare gridState videoSourceState
    attendeeStates
  = map (fun id => sourceWithType id "contentShare")
      (contentShareIds isContentShare attendeeStates)
    ++ map (fun id => sourceWithType id "activeSpeaker")
         (activeSpeakerIds gridState videoSourceState)
    ++ map (fun id => sourceWithType id "common")
         (slice0 (commonPool gridState videoSourceState)
            (availableTiles gridState videoSourceState)).
Proof.
  unfold calculateVideoSourcesToBeRendered.
  rewrite fold_left_push_filter. simpl.
  rewrite <- app_assoc. reflexivity.
Qed.

Lemma countType_app (type : string) (l1 l2 : list VideoSourceWithType.t) :
  countType type (l1 ++ l2) = (countType type l1 + countType type l2)%nat.
Proof. unfold countType. now rewrite filter_app, length_app. Qed.

Lemma countType_map (type type' : string) (ids : list string) :
  countType type (map (fun id => sourceWithType id type') ids)
  = if (type' =? type)%string then List.length ids else 0%nat.
Proof.
  unfold countType.
  induction ids as [|id ids IH]; simpl.
  - now destruct (type' =? type)%string.
  - destruct (type' =? type)%string; simpl; now rewrite IH.
Qed.

(** The counts of the three types of tile in a selection. *)
Lemma countType_selection (gridState : GridState)
  (videoSourceState : VideoSourceState) (attendeeStates : AttendeeStates) :
  let tiles :=
    calculateVideoSourcesToBeRendered isContentShare gridState videoSourceState
      attendeeStates in
  countType "contentShare" tiles
  = List.length (contentShareIds isContentShare attendeeStates)
  /\ countType "activeSpeaker" tiles
     = List.length (activeSpeakerIds gridState videoSourceState)
  /\ countType "common" tiles
     = List.length
         (slice0 (commonPool gridState videoSourceState)
            (availableTiles gridState videoSourceState))
  /\ List.length tiles
     = (countType "contentShare" tiles + countType "activeSpeaker" tiles
        + countType "common" tiles)%nat.
Proof.
  intros tiles. subst tiles.
  rewrite calculateVideoSourcesToBeRendered_parts.
  rewrite !countType_app, !countType_map, !length_app, !length_map. simpl.
  repeat split; lia.
Qed.

Lemma activeSpeakerIds_gallery_length (gridState : GridState)
  (videoSourceState : VideoSourceState) :
  mode gridState = GalleryView ->
  (List.length (activeSpeakerIds gridState videoSourceState) <= 1)%nat.
Proof.
  intros Hmode. unfold activeSpeakerIds. rewrite Hmode.
  destruct (0 <? _); simpl; [|lia].
  pose proof (@slice0_length_le string
                (activeSpeakersWithCameraSource videoSourceState) 1).
  lia.
Qed.

Lemma activeSpeakerIds_featured_length (gridState : GridState)
  (videoSourceState : VideoSourceState) :
  mode gridState = FeaturedView ->
  Z.of_nat (List.length (activeSpeakerIds gridState videoSourceState))
  <= 4 - oneIf (hasLocalVideo videoSourceState)
       - oneIf (truthy (contentShareId videoSourceState)).
Proof.
  intros Hmode. unfold activeSpeakerIds. rewrite Hmode.
  assert (0 <= 4 - oneIf (hasLocalVideo videoSourceState)
                 - oneIf (truthy (contentShareId videoSourceState))) as Hpos
    by (destruct (hasLocalVideo _), (truthy _); simpl; lia).
  destruct (0 <? _).
  - now apply slice0_length_le.
  - cbn [List.length Z.of_nat]. lia.
Qed.

(** No tile for an attendee map without content share. *)
Lemma contentShareIds_none (attendeeStates : AttendeeStates) :
  (forall id, In id (keys attendeeStates) -> isContentShare id = false) ->
  contentShareIds isContentShare attendeeStates = [].
Proof.
  intros Hnone. unfold contentShareIds.
  apply filter_none, Forall_forall. intros id Hid.
  now rewrite (Hnone id Hid).
Qed.

(** The set of preferences, built by adding one at a time. *)
Lemma fold_add_In (l init : list VideoPreference.t) (p : VideoPreference.t) :
  In p (fold_left VideoPreferences.add l init) <-> In p init \/ In p l.
Proof.
  revert init. induction l as [|q l IH]; intros init; simpl; [tauto|].
  rewrite IH. unfold VideoPreferences.add.
  destruct (existsb (VideoPreference.equals q) init) eqn:Hq.
  - apply existsb_exists in Hq. destruct Hq as (q' & Hin & Heq).
    apply VideoPreference_equals_eq in Heq. subst q'.
    intuition (subst; auto).
  - unfold push. rewrite in_app_iff. simpl. tauto.
Qed.

Lemma fold_add_NoDup (l init : list VideoPreference.t) :
  NoDup init -> NoDup (fold_left VideoPreferences.add l init).
Proof.
  revert init. induction l as [|q l IH]; intros init Hinit; simpl;
    [assumption|].
  apply IH. unfold VideoPreferences.add.
  destruct (existsb (VideoPreference.equals q) init) eqn:Hq; [assumption|].
  apply NoDup_app; [assumption | repeat constructor; intros [] |].
  intros p Hp [Heq|[]]. subst p.
  assert (existsb (VideoPreference.equals q) init = true) as Habs;
    [|congruence].
  apply existsb_exists. exists q. split; [assumption|].
  now apply VideoPreference_equals_eq.
Qed.

Lemma fold_add_distinct (l init : list VideoPreference.t) :
  NoDup (init ++ l) -> fold_left VideoPreferences.add l init = init ++ l.
Proof.
  revert init. induction l as [|q l IH]; intros init Hall; simpl.
  - now rewrite app_nil_r.
  - assert (existsb (VideoPreference.equals q) init = false) as Hq.
    { destruct (existsb (VideoPreference.equals q) init) eqn:Hq;
        [|reflexivity].
      apply existsb_exists in Hq. destruct Hq as (q' & Hin & Heq).
      apply VideoPreference_equals_eq in Heq. subst q'.
      apply NoDup_remove_2 in Hall. exfalso. apply Hall.
      apply in_or_app. now left. }
    unfold VideoPreferences.add. rewrite Hq. unfold push.
    rewrite IH; rewrite <- app_assoc; [reflexivity | assumption].
Qed.

(** The preferences are the set of one preference a tile, added in the order
    of the selection. *)
Lemma updateDownlinkPreferences_parts (gridState : GridState)
  (videoSourceState : VideoSourceState) (attendeeStates : AttendeeStates) :
  let tiles :=
    calculateVideoSourcesToBeRendered isContentShare gridState videoSourceState
      attendeeStates in
  let target :=
    computedTarget (List.length tiles) (hasLocalVideo videoSourceState)
      (threshold gridState) in
  updateDownlinkPreferences isContentShare gridState videoSourceState
    attendeeStates
  = fold_left VideoPreferences.add
      (map (fun id => VideoPreference.Build_t id 1 High)
         (contentShareIds isContentShare attendeeStates)
       ++ map (fun id =>
                 VideoPreference.Build_t id 1
                   match mode gridState with
                   | FeaturedView => High
                   | GalleryView => target
                   end)
            (activeSpeakerIds gridState videoSourceState)
       ++ map (fun id => VideoPreference.Build_t id 2 target)
            (slice0 (commonPool gridState videoSourceState)
               (availableTiles gridState videoSourceState)))
      [].
Proof.
  intros tiles target. unfold updateDownlinkPreferences.
  fold tiles. unfold computedTarget in target. fold target.
  subst tiles. rewrite calculateVideoSourcesToBeRendered_parts.
  generalize target. clear target. intros target.
  rewrite !fold_left_app.
  assert (forall (f : string -> VideoPreference.t) ty step ids init,
             (forall acc id,
                 step acc (sourceWithType id ty)
                 = VideoPreferences.add acc (f id)) ->
             fold_left step (map (fun id => sourceWithType id ty) ids) init
             = fold_left VideoPreferences.add (map f ids) init) as Hloop.
  { intros f ty step ids.
    induction ids as [|id ids IH]; intros init Hstep; simpl; [reflexivity|].
    rewrite IH by assumption. now rewrite Hstep. }
  rewrite (Hloop (fun id => VideoPreference.Build_t id 1 High) "contentShare")
    by reflexivity.
  rewrite (Hloop (fun id => VideoPreference.Build_t id 1
                              match mode gridState with
                              | FeaturedView => High
                              | GalleryView => target
                              end) "activeSpeaker") by reflexivity.
  rewrite (Hloop (fun id => VideoPreference.Build_t id 2 target) "common")
    by reflexivity.
  reflexivity.
Qed.

End Selection.

Section SelectionProperties.

Variable isContentShare : string -> bool.

Lemma Forall2_map_ids (A B : Type) (R : A -> B -> Prop) (f : string -> A)
  (g : string -> B) (ids : list string) :
  (forall id, R (f id) (g id)) -> Forall2 R (map f ids) (map g ids).
Proof.
  intros HR. induction ids as [|id ids IH]; simpl; constructor; auto.
Qed.

Lemma Forall2_In_left (A B : Type) (R : A -> B -> Prop) (l : list A)
  (l' : list B) (x : A) :
  Forall2 R l l' -> In x l -> exists y, In y l' /\ R x y.
Proof.
  induction 1 as [|a b l l' Hab _ IH]; intros Hx; [contradiction|].
  destruct Hx as [<-|Hx].
  - exists b. split; [now left | assumption].
  - destruct (IH Hx) as (y & Hy & Hxy). exists y. split; [now right|].
    assumption.
Qed.

Lemma Forall2_In_right (A B : Type) (R : A -> B -> Prop) (l : list A)
  (l' : list B) (y : B) :
  Forall2 R l l' -> In y l' -> exists x, In x l /\ R x y.
Proof.
  induction 1 as [|a b l l' Hab _ IH]; intros Hy; [contradiction|].
  destruct Hy as [<-|Hy].
  - exists a. split; [now left | assumption].
  - destruct (IH Hy) as (x & Hx & Hxy). exists x. split; [now right|].
    assumption.
Qed.

(** The preferences added, one a tile and in the order of the selection,
    before the set drops the repeated ones. *)
Lemma updateDownlinkPreferences_added (gridState : GridState)
  (videoSourceState : VideoSourceState) (attendeeStates : AttendeeStates) :
  let tiles :=
    calculateVideoSourcesToBeRendered isContentShare gridState videoSourceState
      attendeeStates in
  let target :=
    computedTarget (List.length tiles) (hasLocalVideo videoSourceState)
      (threshold gridState) in
  exists added,
    Forall2 (PreferenceFor (mode gridState) target) tiles added
    /\ updateDownlinkPreferences isContentShare gridState videoSourceState
         attendeeStates
       = fold_left VideoPreferences.add added [].
Proof.
  intros tiles target.
  rewrite (updateDownlinkPreferences_parts isContentShare).
  fold tiles. fold target.
  generalize target. clear target. intros target. subst tiles.
  rewrite calculateVideoSourcesToBeRendered_parts.
  eexists. split; [|reflexivity].
  repeat apply Forall2_app; apply Forall2_map_ids; intros id.
  - apply contentSharePreference.
  - destruct (mode gridState) eqn:Hmode.
    + now apply gallerySpeakerPreference.
    + now apply featuredSpeakerPreference.
  - apply commonPreference.
Qed.

Lemma PreferenceFor_ids (mode : VideoGridMode) (target : TargetDisplaySize)
  (tiles : list VideoSourceWithType.t) (added : list VideoPreference.t) :
  Forall2 (PreferenceFor mode target) tiles added ->
  map VideoPreference.attendeeId added
  = map VideoSourceWithType.attendeeId tiles.
Proof.
  induction 1 as [|tile preference tiles added Hfor _ IH]; simpl;
    [reflexivity|].
  rewrite IH. now destruct Hfor.
Qed.

(** C5: the preference set handed to the policy holds, for every selected
    tile, the preference of that tile: for a content share priority 1 and
    High; for an active speaker priority 1, High in the featured view and the
    computed target in the gallery view; for a common tile priority 2 and the
    computed target, where the computed target is High when the selected tiles
    plus one for local video are within the threshold and Low otherwise.  The
    set holds no other preference and none twice; when no attendee is selected
    twice it holds one preference a tile, in the order of the selection. *)
Theorem updateDownlinkPreferences_assignment (gridState : GridState)
  (videoSourceState : VideoSourceState) (attendeeStates : AttendeeStates) :
  let tiles :=
    calculateVideoSourcesToBeRendered isContentShare gridState videoSourceState
      attendeeStates in
  let target :=
    computedTarget (List.length tiles) (hasLocalVideo videoSourceState)
      (threshold gridState) in
  let preferences :=
    updateDownlinkPreferences isContentShare gridState videoSourceState
      attendeeStates in
  (forall tile,
      In tile tiles ->
      exists preference,
        In preference preferences
        /\ PreferenceFor (mode gridState) target tile preference)
  /\ (forall preference,
         In preference preferences ->
         exists tile,
           In tile tiles
           /\ PreferenceFor (mode gridState) target tile preference)
  /\ NoDup preferences
  /\ (NoDup (map VideoSourceWithType.attendeeId tiles) ->
      Forall2 (PreferenceFor (mode gridState) target) tiles preferences).
Proof.
  intros tiles target preferences.
  destruct (updateDownlinkPreferences_added gridState videoSourceState
              attendeeStates) as (added & Hadded & Hset).
  fold tiles target in Hadded. fold preferences in Hset.
  rewrite Hset. repeat split.
  - intros tile Htile.
    destruct (Forall2_In_left tile Hadded Htile) as (p & Hp & Hfor).
    exists p. split; [|assumption]. apply fold_add_In. now right.
  - intros p Hp. apply fold_add_In in Hp. destruct Hp as [[]|Hp].
    now apply (Forall2_In_right p Hadded).
  - apply fold_add_NoDup. constructor.
  - intros Hids. rewrite fold_add_distinct; [assumption|]. simpl.
    apply (NoDup_map_inv VideoPreference.attendeeId).
    now rewrite (PreferenceFor_ids Hadded).
Qed.

(** C3, amended: in the featured view the active-speaker and common tiles
    together never exceed 4 less one for local video and one for a set content
    share id; the whole selection is within 4 when its content-share tiles are
    no more than those two deductions. *)
Theorem featuredView_capacity (gridState : GridState)
  (videoSourceState : VideoSourceState) (attendeeStates : AttendeeStates) :
  mode gridState = FeaturedView ->
  let tiles :=
    calculateVideoSourcesToBeRendered isContentShare gridState videoSourceState
      attendeeStates in
  let deducted :=
    oneIf (hasLocalVideo videoSourceState)
      + oneIf (truthy (contentShareId videoSourceState)) in
  Z.of_nat (countType "activeSpeaker" tiles + countType "common" tiles)
  <= 4 - deducted
  /\ (Z.of_nat (countType "contentShare" tiles) <= deducted ->
      Z.of_nat (List.length tiles) <= 4).
Proof.
  intros Hmode tiles deducted.
  destruct (countType_selection isContentShare gridState videoSourceState
              attendeeStates) as (Hcs & Has & Hcommon & Hlen).
  fold tiles in Hcs, Has, Hcommon, Hlen.
  pose proof (activeSpeakerIds_featured_length gridState videoSourceState Hmode)
    as Hspeakers.
  assert (Z.of_nat (countType "common" tiles)
          <= availableTiles gridState videoSourceState) as Hfit.
  { rewrite Hcommon. apply slice0_length_le.
    unfold availableTiles. rewrite Hmode. lia. }
  unfold availableTiles in Hfit. rewrite Hmode in Hfit.
  rewrite <- Has in Hfit, Hspeakers.
  subst deducted. split; [lia|]. intros Hshare. rewrite Hlen. lia.
Qed.

(** C4, amended: in the gallery view, not zoomed, every camera source that is
    not selected as an active speaker is selected as a common tile; zoomed, and
    with the threshold covering the deductions for local video and a set content
    share id and the active speaker, the active-speaker and common tiles
    together never exceed the threshold less those deductions, and the whole
    selection is within the threshold when its content-share tiles are no more
    than the deductions. *)
Theorem galleryView_capacity (gridState : GridState)
  (videoSourceState : VideoSourceState) (attendeeStates : AttendeeStates) :
  mode gridState = GalleryView ->
  let tiles :=
    calculateVideoSourcesToBeRendered isContentShare gridState videoSourceState
      attendeeStates in
  let deducted :=
    oneIf (hasLocalVideo videoSourceState)
      + oneIf (truthy (contentShareId videoSourceState)) in
  (isZoomed gridState = false ->
   Z.of_nat (List.length (cameraSources videoSourceState))
   <= MAX_ARRAY_LENGTH ->
   forall id,
     In id (cameraSources videoSourceState) ->
     ~ In (sourceWithType id "activeSpeaker") tiles ->
     In (sourceWithType id "common") tiles)
  /\ (isZoomed gridState = true ->
      deducted + Z.of_nat (countType "activeSpeaker" tiles)
      <= threshold gridState ->
      Z.of_nat (countType "activeSpeaker" tiles + countType "common" tiles)
      <= threshold gridState - deducted
      /\ (Z.of_nat (countType "contentShare" tiles) <= deducted ->
          Z.of_nat (List.length tiles) <= threshold gridState)).
Proof.
  intros Hmode tiles deducted.
  destruct (countType_selection isContentShare gridState videoSourceState
              attendeeStates) as (Hcs & Has & Hcommon & Hlen).
  fold tiles in Hcs, Has, Hcommon, Hlen.
  pose proof (activeSpeakerIds_gallery_length gridState videoSourceState Hmode)
    as Hone.
  split.
  - intros Hzoom Harray id Hcamera Hnot.
    subst tiles. rewrite calculateVideoSourcesToBeRendered_parts in *.
    apply in_or_app. right. apply in_or_app. right.
    apply (in_map (fun id => sourceWithType id "common")).
    assert (In id (commonPool gridState videoSourceState)) as Hpool.
    { unfold commonPool. destruct (0 <? _); [|assumption].
      apply filter_In. split; [assumption|].
      destruct (includes _ id) eqn:Hinc; [|reflexivity].
      exfalso. apply Hnot. apply in_or_app. right. apply in_or_app. left.
      apply (in_map (fun id => sourceWithType id "activeSpeaker")).
      now apply includes_In. }
    rewrite slice0_all; [assumption|].
    assert (List.length (commonPool gridState videoSourceState)
            <= List.length (cameraSources videoSourceState))%nat as Hsub.
    { unfold commonPool. destruct (0 <? _); [apply filter_length_le | lia]. }
    unfold availableTiles. rewrite Hmode, Hzoom.
    unfold MAX_ARRAY_LENGTH in Harray. unfold MAX_SAFE_INTEGER.
    destruct (hasLocalVideo videoSourceState),
      (truthy (contentShareId videoSourceState)); simpl oneIf; lia.
  - intros Hzoom Hcover.
    assert (Z.of_nat (countType "common" tiles)
            <= availableTiles gridState videoSourceState) as Hfit.
    { rewrite Hcommon. apply slice0_length_le.
      unfold availableTiles. rewrite Hmode, Hzoom. rewrite <- Has.
      subst deducted. lia. }
    unfold availableTiles in Hfit. rewrite Hmode, Hzoom, <- Has in Hfit.
    subst deducted. split; [lia|]. intros Hshare. rewrite Hlen. lia.
Qed.

(** C1, amended: in scenario A the gallery view that is not zoomed selects the
    active speaker c and then all nine other cameras, none dropped, and with 10
    tiles over the threshold of 8 every tile is asked at Low; it is the zoomed
    gallery view that selects c and the seven common tiles a, b, d, e, f, g, h
    and asks every tile at High. *)
Theorem scenarioA_selection (attendeeStates : AttendeeStates) :
  (forall id, In id (keys attendeeStates) -> isContentShare id = false) ->
  calculateVideoSourcesToBeRendered isContentShare (scenarioGridState false)
    scenarioVideoSourceState attendeeStates
  = sourceWithType "c" "activeSpeaker"
      :: map (fun id => sourceWithType id "common")
           ["a"; "b"; "d"; "e"; "f"; "g"; "h"; "i"; "j"]
  /\ updateDownlinkPreferences isContentShare (scenarioGridState false)
       scenarioVideoSourceState attendeeStates
     = VideoPreference.Build_t "c" 1 Low
         :: map (fun id => VideoPreference.Build_t id 2 Low)
              ["a"; "b"; "d"; "e"; "f"; "g"; "h"; "i"; "j"]
  /\ calculateVideoSourcesToBeRendered isContentShare (scenarioGridState true)
       scenarioVideoSourceState attendeeStates
     = scenarioExpectedTiles
  /\ updateDownlinkPreferences isContentShare (scenarioGridState true)
       scenarioVideoSourceState attendeeStates
     = VideoPreference.Build_t "c" 1 High
         :: map (fun id => VideoPreference.Build_t id 2 High)
              ["a"; "b"; "d"; "e"; "f"; "g"; "h"].
Proof.
  intros Hnone.
  pose proof (contentShareIds_none isContentShare attendeeStates Hnone) as Hcs.
  assert (forall zoomed,
             calculateVideoSourcesToBeRendered isContentShare
               (scenarioGridState zoomed) scenarioVideoSourceState attendeeStates
             = sourceWithType "c" "activeSpeaker"
                 :: map (fun id => sourceWithType id "common")
                      (if zoomed
                       then ["a"; "b"; "d"; "e"; "f"; "g"; "h"]
                       else ["a"; "b"; "d"; "e"; "f"; "g"; "h"; "i"; "j"]))
    as Htiles.
  { intros zoomed. rewrite calculateVideoSourcesToBeRendered_parts, Hcs.
    destruct zoomed; reflexivity. }
  repeat split.
  - apply (Htiles false).
  - rewrite (updateDownlinkPreferences_parts isContentShare), Hcs.
    rewrite (Htiles false). reflexivity.
  - apply (Htiles true).
  - rewrite (updateDownlinkPreferences_parts isContentShare), Hcs.
    rewrite (Htiles true). reflexivity.
Qed.

End SelectionProperties.

(** ** Keys of an object under the assignments of the reducer *)

Section ObjectKeys.

Variable V : Type.

Implicit Types (o : JsObject V) (k id : string).

Lemma has_includes_keys k o : has k o = includes (keys o) k.
Proof.
  unfold has, includes, keys.
  induction o as [|[k' v] o IH]; simpl; [reflexivity|].
  now rewrite IH, String.eqb_sym.
Qed.

Lemma has_In k o : has k o = true <-> In k (keys o).
Proof. rewrite has_includes_keys. apply includes_In. Qed.

Lemma has_false_In k o : has k o = false <-> ~ In k (keys o).
Proof.
  rewrite <- has_In. destruct (has k o); split; intros H; congruence.
Qed.

Lemma get_None_has k o : get k o = None <-> has k o = false.
Proof.
  unfold has.
  induction o as [|[k' v] o IH]; simpl; [tauto|].
  destruct (k' =? k)%string; simpl; [split; discriminate | exact IH].
Qed.

Lemma keys_update k (f : V -> V) o : keys (update k f o) = keys o.
Proof.
  unfold keys, update. rewrite map_map. apply map_ext.
  intros [k' v]. simpl. now destruct (k' =? k)%string.
Qed.

Lemma keys_updateAll (f : V -> V) o : keys (updateAll f o) = keys o.
Proof. unfold keys, updateAll. rewrite map_map. now apply map_ext. Qed.

Lemma has_update id k (f : V -> V) o : has id (update k f o) = has id o.
Proof. now rewrite !has_includes_keys, keys_update. Qed.

Lemma has_push id k (v : V) o :
  has id (push o (k, v)) = has id o || (id =? k)%string.
Proof.
  unfold has, push. rewrite existsb_app. simpl.
  now rewrite orb_false_r, String.eqb_sym.
Qed.

Lemma has_put id k (v : V) o :
  has id (put k v o) = has id o || (id =? k)%string.
Proof.
  unfold put. destruct (has k o) eqn:Hk.
  - rewrite has_update. destruct (String.eqb_spec id k) as [->|_].
    + now rewrite Hk.
    + now rewrite orb_false_r.
  - apply has_push.
Qed.

Lemma has_delete id k o :
  has id (delete k o) = has id o && negb (id =? k)%string.
Proof.
  unfold has, delete.
  induction o as [|[k' v] o IH]; simpl; [reflexivity|].
  destruct (String.eqb_spec k' k) as [->|Hk]; simpl.
  - rewrite IH. rewrite (String.eqb_sym k id).
    destruct (id =? k)%string; simpl; [now rewrite !andb_false_r | reflexivity].
  - rewrite IH. destruct (String.eqb_spec k' id) as [->|_]; simpl.
    + destruct (String.eqb_spec id k) as [->|_]; [congruence | reflexivity].
    + reflexivity.
Qed.

Lemma put_absent k (v : V) o : has k o = false -> put k v o = o ++ [(k, v)].
Proof. intros Hk. unfold put. now rewrite Hk. Qed.

(** A loop that deletes the keys a test picks among a snapshot of keys. *)
Lemma fold_delete_filter (p : string -> bool) (ks : list string) o :
  fold_left (fun o k => if p k then delete k o else o) ks o
  = filter (fun e => negb (p (fst e) && includes ks (fst e))) o.
Proof.
  revert o. induction ks as [|k ks IH]; intros o; simpl.
  - symmetry. apply filter_all, Forall_forall. intros e _.
    now rewrite andb_false_r.
  - rewrite IH. destruct (p k) eqn:Hp.
    + unfold delete. rewrite filter_filter_andb. apply filter_ext.
      intros [k' v]. simpl.
      destruct (String.eqb_spec k' k) as [->|Hk]; simpl.
      * now rewrite Hp.
      * reflexivity.
    + apply filter_ext. intros [k' v]. simpl.
      destruct (String.eqb_spec k' k) as [->|Hk]; simpl.
      * now rewrite Hp.
      * reflexivity.
Qed.

Lemma has_filter_keys id (q : string -> bool) o :
  has id (filter (fun e => q (fst e)) o) = has id o && q id.
Proof.
  unfold has.
  induction o as [|[k v] o IH]; simpl; [reflexivity|].
  destruct (q k) eqn:Hq; simpl; rewrite IH;
    destruct (String.eqb_spec k id) as [->|_]; simpl; try reflexivity.
  - now rewrite Hq.
  - rewrite Hq. now rewrite andb_false_r.
Qed.

End ObjectKeys.

(** ** The reducer, case by case *)

Section ReducerProperties.

Variable isContentShare : string -> bool.

Lemma assign_same (A : Type) (r : ref) (object : A) (objects : ref -> A) :
  assign r object objects r = object.
Proof. unfold assign. now rewrite Nat.eqb_refl. Qed.

Lemma attendeeStatesOf_write (store : Store) (state : State)
  (attendeeStates' : AttendeeStates) :
  attendeeStatesOf
    (writeAttendeeStates (attendeeStates state) attendeeStates' store) state
  = attendeeStates'.
Proof. unfold attendeeStatesOf. simpl. apply assign_same. Qed.

Lemma videoSourceStateOf_write (store : Store) (state : State)
  (videoSourceState' : VideoSourceState) :
  videoSourceStateOf
    (writeVideoSourceState (videoSourceState state) videoSourceState' store)
    state
  = videoSourceState'.
Proof. unfold videoSourceStateOf. simpl. apply assign_same. Qed.

(** *** UpdateAttendeeStates *)

Lemma reducer_UpdateAttendeeStates (store : Store) (state : State)
  (roster : RosterType) :
  reducer isContentShare store state (UpdateAttendeeStates roster)
  = Return
      (writeAttendeeStates (attendeeStates state)
         (ensureVideoEnabled (cameraSources (videoSourceStateOf store state))
            (addJoinedAttendees roster
               (removeLeftAttendees isContentShare roster
                  (attendeeStatesOf store state))))
         store,
       state).
Proof. reflexivity. Qed.

Lemma has_removeLeftAttendees (id : string) (roster : RosterType)
  (attendeeStates : AttendeeStates) :
  has id (removeLeftAttendees isContentShare roster attendeeStates)
  = has id attendeeStates && (isContentShare id || has id roster).
Proof.
  unfold removeLeftAttendees.
  rewrite (fold_delete_filter
             (fun k => negb (isContentShare k) && negb (has k roster))).
  rewrite (has_filter_keys id
             (fun k => negb ((negb (isContentShare k) && negb (has k roster))
                             && includes (keys attendeeStates) k))).
  rewrite <- has_includes_keys.
  destruct (has id attendeeStates), (isContentShare id), (has id roster);
    reflexivity.
Qed.

Lemma has_addJoinedAttendees (id : string) (roster : RosterType)
  (attendeeStates : AttendeeStates) :
  has id (addJoinedAttendees roster attendeeStates)
  = has id attendeeStates || has id roster.
Proof.
  unfold addJoinedAttendees. rewrite (has_includes_keys id roster).
  generalize (keys roster) as ks. intros ks. revert attendeeStates.
  induction ks as [|k ks IH]; intros attendeeStates; simpl.
  - now rewrite orb_false_r.
  - rewrite IH. destruct (has k attendeeStates) eqn:Hk.
    + rewrite has_update. destruct (String.eqb_spec id k) as [->|_]; simpl.
      * now rewrite Hk.
      * reflexivity.
    + rewrite has_put. now rewrite orb_assoc.
Qed.

Lemma has_ensureVideoEnabled (id : string) (cameraSources : list string)
  (attendeeStates : AttendeeStates) :
  has id (ensureVideoEnabled cameraSources attendeeStates)
  = has id attendeeStates.
Proof.
  unfold ensureVideoEnabled. revert attendeeStates.
  induction cameraSources as [|k ks IH]; intros attendeeStates; simpl.
  - reflexivity.
  - rewrite IH. destruct (has k attendeeStates); [apply has_update | reflexivity].
Qed.

(** C7: after UpdateAttendeeStates every key of the roster is a key of
    attendeeStates, and every key attendeeStates had that is not in the roster
    and is not a content share is a key no more. *)
Theorem UpdateAttendeeStates_keys (store : Store) (state : State)
  (roster : RosterType) :
  exists store',
    reducer isContentShare store state (UpdateAttendeeStates roster)
    = Return (store', state)
    /\ (forall id,
           In id (keys roster) -> In id (keys (attendeeStatesOf store' state)))
    /\ (forall id,
           In id (keys (attendeeStatesOf store state)) ->
           ~ In id (keys roster) ->
           isContentShare id = false ->
           ~ In id (keys (attendeeStatesOf store' state))).
Proof.
  eexists. split; [apply reducer_UpdateAttendeeStates|].
  rewrite attendeeStatesOf_write.
  split; intros id.
  - intros Hroster. apply has_In.
    rewrite has_ensureVideoEnabled, has_addJoinedAttendees.
    apply has_In in Hroster. rewrite Hroster. apply orb_true_r.
  - intros Hbefore Hroster Hshare. apply has_false_In.
    rewrite has_ensureVideoEnabled, has_addJoinedAttendees,
      has_removeLeftAttendees.
    apply has_false_In in Hroster. rewrite Hroster, Hshare.
    now rewrite andb_false_r.
Qed.

(** *** UpdateActiveSpeakers *)

Lemma speakersWithCameraSource_filter
  (activeSpeakers cameraSources : list string)
  (attendeeStates : AttendeeStates) :
  speakersWithCameraSource activeSpeakers cameraSources attendeeStates
  = filter
      (fun id => videoEnabledAt id attendeeStates && includes cameraSources id)
      activeSpeakers.
Proof.
  unfold speakersWithCameraSource.
  rewrite (fold_left_push_filter
             (fun id => videoEnabledAt id attendeeStates
                        && includes cameraSources id)
             (fun id => id)).
  simpl. apply map_id.
Qed.

(** C8: UpdateActiveSpeakers returns, and leaves in
    activeSpeakersWithCameraSource the given ids, in their order, whose attendee
    has videoEnabled set and that are among cameraSources; the others are
    dropped. *)
Theorem UpdateActiveSpeakers_filters (store : Store) (state : State)
  (activeSpeakers : list string) :
  exists store',
    reducer isContentShare store state (UpdateActiveSpeakers activeSpeakers)
    = Return (store', state)
    /\ activeSpeakersWithCameraSource (videoSourceStateOf store' state)
       = filter
           (fun id =>
              match get id (attendeeStatesOf store state) with
              | Some attendee => videoEnabled attendee
              | None => false
              end
              && includes (cameraSources (videoSourceStateOf store state)) id)
           activeSpeakers.
Proof.
  eexists. split; [reflexivity|].
  unfold pushDownlinkPreferences, chooseRemoteVideoSources, videoSourceStateOf.
  simpl. rewrite assign_same. simpl.
  apply speakersWithCameraSource_filter.
Qed.

(** *** The default case *)

(** C9: an action whose type is none of the ten members of VideoGridAction
    makes the reducer throw its error; no state is returned. *)
Theorem reducer_unknown_type_throws (store : Store) (state : State)
  (action : Action) :
  type action < 0 \/ 9 < type action ->
  reducer isContentShare store state action
  = Throw (Error "Incorrect type in VideoGridStateProvider").
Proof.
  intros Hout. unfold reducer.
  unfold VideoGridAction.ResetVideoGridState,
    VideoGridAction.UpdateAttendeeStates, VideoGridAction.UpdateVideoSources,
    VideoGridAction.UpdateActiveSpeakers,
    VideoGridAction.UpdateLocalSourceState, VideoGridAction.UpdateGridState,
    VideoGridAction.PauseVideoTile, VideoGridAction.UnpauseVideoTile,
    VideoGridAction.ZoomIn, VideoGridAction.ZoomOut.
  repeat match goal with
         | |- context [type action =? ?n] =>
             destruct (Z.eqb_spec (type action) n); [lia|]
         end.
  reflexivity.
Qed.

(** *** PauseVideoTile and UnpauseVideoTile *)

(** C10: for an attendee id that is not a key of attendeeStates, PauseVideoTile
    and UnpauseVideoTile throw a TypeError and return no state; for a key they
    return the state with the flag of that attendee set and cleared. *)
Theorem PauseVideoTile_absent_attendee_throws (store : Store) (state : State)
  (id : string) :
  (~ In id (keys (attendeeStatesOf store state)) ->
   reducer isContentShare store state (PauseVideoTile id) = Throw TypeError
   /\ reducer isContentShare store state (UnpauseVideoTile id)
      = Throw TypeError)
  /\ (In id (keys (attendeeStatesOf store state)) ->
      reducer isContentShare store state (PauseVideoTile id)
      = Return
          (writeAttendeeStates (attendeeStates state)
             (update id (setBandwidthConstrained true)
                (attendeeStatesOf store state)) store,
           state)
      /\ reducer isContentShare store state (UnpauseVideoTile id)
         = Return
             (writeAttendeeStates (attendeeStates state)
                (update id (setBandwidthConstrained false)
                   (attendeeStatesOf store state)) store,
              state)).
Proof.
  split; intros Hkey.
  - apply has_false_In, get_None_has in Hkey.
    unfold reducer. simpl. now rewrite Hkey.
  - apply has_In in Hkey.
    destruct (get id (attendeeStatesOf store state)) as [attendee|] eqn:Hget.
    + unfold reducer. simpl. now rewrite Hget.
    + apply get_None_has in Hget. congruence.
Qed.

(** *** ResetVideoGridState *)

Lemma reducer_ResetVideoGridState (store : Store) (state : State) :
  reducer isContentShare store state ResetVideoGridState
  = Return (store, initialState).
Proof. reflexivity. Qed.

End ReducerProperties.

(** ** UpdateVideoSources *)

Section UpdateVideoSourcesProperties.

Variable isContentShare : string -> bool.

Lemma map_fixed (A : Type) (f : A -> A) (l : list A) :
  Forall (fun x => f x = x) l -> map f l = l.
Proof.
  induction 1 as [|x l Hx _ IH]; simpl; [reflexivity|].
  now rewrite Hx, IH.
Qed.

Lemma Forall_filter_keep (A : Type) (P : A -> Prop) (f : A -> bool)
  (l : list A) :
  Forall P l -> Forall P (filter f l).
Proof.
  intros H. apply Forall_forall. intros x Hx.
  apply filter_In in Hx. destruct Hx as [Hx _].
  revert x Hx. now apply Forall_forall.
Qed.

Lemma has_enableVideoSources (k : string) (videoSourceIds : list string)
  (attendeeStates : AttendeeStates) :
  has k (enableVideoSources isContentShare videoSourceIds attendeeStates)
  = has k attendeeStates || includes videoSourceIds k.
Proof.
  unfold enableVideoSources. revert attendeeStates.
  induction videoSourceIds as [|id ids IH]; intros attendeeStates; simpl.
  - now rewrite orb_false_r.
  - rewrite IH, has_update.
    destruct (has id attendeeStates) eqn:Hid; simpl.
    + destruct (String.eqb_spec k id) as [->|_]; simpl; [now rewrite Hid|].
      reflexivity.
    + destruct (isContentShare id); rewrite has_put; now rewrite orb_assoc.
Qed.

(** One turn of the loop that enables the video sources. *)
Lemma enable_one_videoEnabled (done : list string) (id : string)
  (attendeeStates : AttendeeStates) :
  Forall (fun e => (fst e =? id)%string = false ->
                   videoEnabled (snd e) = includes done (fst e))
    attendeeStates ->
  Forall (fun e => videoEnabled (snd e) = includes (done ++ [id]) (fst e))
    (update id (setVideoEnabled true) attendeeStates).
Proof.
  intros Hall. unfold update. apply Forall_map.
  apply Forall_impl with (2 := Hall). intros [k a] Hold. simpl in *.
  rewrite includes_app. unfold includes at 2. simpl.
  destruct (k =? id)%string eqn:Heq; simpl; rewrite ?Heq; simpl.
  - now rewrite orb_true_r.
  - rewrite !orb_false_r. now apply Hold.
Qed.

Lemma videoEnabled_enableVideoSources (done videoSourceIds : list string)
  (attendeeStates : AttendeeStates) :
  Forall (fun e => videoEnabled (snd e) = includes done (fst e))
    attendeeStates ->
  Forall
    (fun e => videoEnabled (snd e) = includes (done ++ videoSourceIds) (fst e))
    (enableVideoSources isContentShare videoSourceIds attendeeStates).
Proof.
  unfold enableVideoSources. revert done attendeeStates.
  induction videoSourceIds as [|id ids IH]; intros done attendeeStates Hall;
    simpl.
  - now rewrite app_nil_r.
  - replace (done ++ id :: ids) with ((done ++ [id]) ++ ids)
      by now rewrite <- app_assoc.
    apply IH. apply enable_one_videoEnabled.
    assert (Forall (fun e => (fst e =? id)%string = false ->
                             videoEnabled (snd e) = includes done (fst e))
              attendeeStates) as Hold
      by (apply Forall_impl with (2 := Hall); auto).
    destruct (has id attendeeStates) eqn:Hid; simpl; [assumption|].
    destruct (isContentShare id); rewrite put_absent by assumption;
      (apply Forall_app; split; [assumption|]; constructor; [|constructor];
       simpl; rewrite String.eqb_refl; discriminate).
Qed.

(** When every id is a key already, the loop only sets [videoEnabled]. *)
Lemma enableVideoSources_present (videoSourceIds : list string)
  (attendeeStates : AttendeeStates) :
  (forall id, In id videoSourceIds -> has id attendeeStates = true) ->
  enableVideoSources isContentShare videoSourceIds attendeeStates
  = map (fun e => if includes videoSourceIds (fst e)
                  then (fst e, setVideoEnabled true (snd e))
                  else e)
      attendeeStates.
Proof.
  unfold enableVideoSources. revert attendeeStates.
  induction videoSourceIds as [|id ids IH]; intros attendeeStates Hkeys; simpl.
  - symmetry. apply map_fixed, Forall_forall. now intros e _.
  - rewrite (Hkeys id) by now left. simpl.
    rewrite IH.
    + unfold update. rewrite map_map. apply map_ext. intros [k a]. simpl.
      unfold includes at 2. simpl.
      destruct (k =? id)%string; simpl; [|reflexivity].
      now destruct (includes ids k).
    + intros id' Hid'. rewrite has_update. apply Hkeys. now right.
Qed.

(** The attendee map the case leaves: every key a content share only if among
    the sources, every source a key, and [videoEnabled] set exactly for the
    sources. *)
Lemma reconcileVideoSources_videoEnabled (videoSourceIds : list string)
  (attendeeStates : AttendeeStates) :
  Forall (fun e => videoEnabled (snd e) = includes videoSourceIds (fst e))
    (reconcileVideoSources isContentShare videoSourceIds attendeeStates).
Proof.
  unfold reconcileVideoSources.
  apply (videoEnabled_enableVideoSources []).
  unfold removeStaleContentShare.
  rewrite (fold_delete_filter
             (fun k => isContentShare k && negb (includes videoSourceIds k))).
  apply Forall_filter_keep. unfold updateAll. apply Forall_map.
  apply Forall_forall. now intros e _.
Qed.

Lemma has_reconcileVideoSources (k : string) (videoSourceIds : list string)
  (attendeeStates : AttendeeStates) :
  has k (reconcileVideoSources isContentShare videoSourceIds attendeeStates)
  = (has k attendeeStates
     && negb (isContentShare k && negb (includes videoSourceIds k)))
    || includes videoSourceIds k.
Proof.
  unfold reconcileVideoSources. rewrite has_enableVideoSources.
  unfold removeStaleContentShare.
  rewrite (fold_delete_filter
             (fun k => isContentShare k && negb (includes videoSourceIds k))).
  rewrite (has_filter_keys k
             (fun k' => negb ((isContentShare k'
                               && negb (includes videoSourceIds k'))
                              && includes
                                   (keys (updateAll (setVideoEnabled false)
                                            attendeeStates)) k'))).
  rewrite <- has_includes_keys.
  rewrite !has_includes_keys, keys_updateAll.
  destruct (includes (keys attendeeStates) k), (isContentShare k),
    (includes videoSourceIds k); reflexivity.
Qed.

(** Reconciling again with the same sources changes nothing. *)
Lemma reconcileVideoSources_idempotent (videoSourceIds : list string)
  (attendeeStates : AttendeeStates) :
  reconcileVideoSources isContentShare videoSourceIds
    (reconcileVideoSources isContentShare videoSourceIds attendeeStates)
  = reconcileVideoSources isContentShare videoSourceIds attendeeStates.
Proof.
  set (once := reconcileVideoSources isContentShare videoSourceIds attendeeStates).
  assert (forall k, has k once = true ->
                    isContentShare k && negb (includes videoSourceIds k) = false)
    as Hshares.
  { intros k. unfold once. rewrite has_reconcileVideoSources.
    destruct (has k attendeeStates), (isContentShare k),
      (includes videoSourceIds k); simpl; congruence. }
  assert (forall id, In id videoSourceIds -> has id once = true) as Hsources.
  { intros id Hid. unfold once. rewrite has_reconcileVideoSources.
    apply includes_In in Hid. rewrite Hid. apply orb_true_r. }
  pose proof (reconcileVideoSources_videoEnabled videoSourceIds attendeeStates)
    as Henabled.
  fold once in Henabled.
  unfold reconcileVideoSources at 1.
  assert (removeStaleContentShare isContentShare videoSourceIds
            (updateAll (setVideoEnabled false) once)
          = updateAll (setVideoEnabled false) once) as Hstale.
  { unfold removeStaleContentShare.
    rewrite (fold_delete_filter
               (fun k => isContentShare k && negb (includes videoSourceIds k))).
    apply filter_all, Forall_forall. intros [k a] Hin. simpl.
    rewrite Hshares; [reflexivity|].
    apply has_In. rewrite <- (keys_updateAll (setVideoEnabled false) once).
    apply (in_map fst) in Hin. exact Hin. }
  rewrite Hstale. rewrite enableVideoSources_present.
  - unfold updateAll. rewrite map_map. apply map_fixed.
    apply Forall_impl with (2 := Henabled).
    intros [k [id nm enabled constrained]] Hk. simpl in *.
    destruct (includes videoSourceIds k); subst enabled; reflexivity.
  - intros id Hid. rewrite has_includes_keys, keys_updateAll,
      <- has_includes_keys. now apply Hsources.
Qed.

Lemma reducer_UpdateVideoSources (store : Store) (state : State)
  (videoSources : list VideoSource.t) :
  let attendeeStates' :=
    reconcileVideoSources isContentShare (videoSourceIdsOf videoSources)
      (attendeeStatesOf store state) in
  let videoSourceState' :=
    setCameraSources (populateCameraSources isContentShare attendeeStates')
      (videoSourceStateOf store state) in
  exists store',
    reducer isContentShare store state (UpdateVideoSources videoSources)
    = Return (store', state)
    /\ attendeeStatesOf store' state = attendeeStates'
    /\ videoSourceStateOf store' state = videoSourceState'
    /\ gridStateOf store' state = gridStateOf store state
    /\ chosenRemoteVideoSources store'
       = Some (updateDownlinkPreferences isContentShare
                 (gridStateOf store state) videoSourceState' attendeeStates').
Proof.
  intros attendeeStates' videoSourceState'.
  eexists. split; [reflexivity|].
  unfold pushDownlinkPreferences, chooseRemoteVideoSources, attendeeStatesOf,
    videoSourceStateOf, gridStateOf.
  simpl. rewrite !assign_same. repeat split.
Qed.

(** C6: dispatching UpdateVideoSources a second time with the same sources
    leaves the cameraSources of the first dispatch and hands the policy the
    preference set of the first dispatch. *)
Theorem UpdateVideoSources_twice (store : Store) (state : State)
  (videoSources : list VideoSource.t) :
  exists store1 state1 store2 state2 preferences,
    reducer isContentShare store state (UpdateVideoSources videoSources)
    = Return (store1, state1)
    /\ reducer isContentShare store1 state1 (UpdateVideoSources videoSources)
       = Return (store2, state2)
    /\ cameraSources (videoSourceStateOf store2 state2)
       = cameraSources (videoSourceStateOf store1 state1)
    /\ chosenRemoteVideoSources store1 = Some preferences
    /\ chosenRemoteVideoSources store2 = Some preferences.
Proof.
  destruct (reducer_UpdateVideoSources store state videoSources)
    as (store1 & Hfirst & Hattendees1 & Hsources1 & Hgrid1 & Hchosen1).
  destruct (reducer_UpdateVideoSources store1 state videoSources)
    as (store2 & Hsecond & Hattendees2 & Hsources2 & Hgrid2 & Hchosen2).
  exists store1, state, store2, state. eexists.
  split; [exact Hfirst|]. split; [exact Hsecond|].
  rewrite Hattendees1, reconcileVideoSources_idempotent in Hsources2, Hchosen2.
  rewrite Hsources1 in Hsources2, Hchosen2.
  rewrite Hgrid1 in Hchosen2.
  split; [|split; [exact Hchosen1 | exact Hchosen2]].
  now rewrite Hsources2, Hsources1.
Qed.

End UpdateVideoSourcesProperties.

(** ** The scenarios, evaluated *)

Lemma scenario_no_content_share :
  forall id,
    In id (keys scenarioAttendeeStates) -> hasContentModality id = false.
Proof.
  intros id Hid. simpl in Hid.
  repeat (destruct Hid as [<-|Hid]; [reflexivity|]).
  contradiction.
Defined.

Lemma scenarioA_selection_witness :
  calculateVideoSourcesToBeRendered hasContentModality (scenarioGridState false)
    scenarioVideoSourceState scenarioAttendeeStates
  = sourceWithType "c" "activeSpeaker"
      :: map (fun id => sourceWithType id "common")
           ["a"; "b"; "d"; "e"; "f"; "g"; "h"; "i"; "j"]
  /\ updateDownlinkPreferences hasContentModality (scenarioGridState false)
       scenarioVideoSourceState scenarioAttendeeStates
     = VideoPreference.Build_t "c" 1 Low
         :: map (fun id => VideoPreference.Build_t id 2 Low)
              ["a"; "b"; "d"; "e"; "f"; "g"; "h"; "i"; "j"]
  /\ calculateVideoSourcesToBeRendered hasContentModality (scenarioGridState true)
       scenarioVideoSourceState scenarioAttendeeStates
     = scenarioExpectedTiles
  /\ updateDownlinkPreferences hasContentModality (scenarioGridState true)
       scenarioVideoSourceState scenarioAttendeeStates
     = VideoPreference.Build_t "c" 1 High
         :: map (fun id => VideoPreference.Build_t id 2 High)
              ["a"; "b"; "d"; "e"; "f"; "g"; "h"].
Proof.
  exact (scenarioA_selection hasContentModality scenarioAttendeeStates
           scenario_no_content_share).
Defined.

Lemma updateDownlinkPreferences_assignment_witness :
  NoDup
    (map VideoSourceWithType.attendeeId
       (calculateVideoSourcesToBeRendered hasContentModality
          (scenarioGridState true) scenarioVideoSourceState
          scenarioAttendeeStates))
  /\ Forall2 (PreferenceFor GalleryView High)
       (calculateVideoSourcesToBeRendered hasContentModality
          (scenarioGridState true) scenarioVideoSourceState
          scenarioAttendeeStates)
       (updateDownlinkPreferences hasContentModality (scenarioGridState true)
          scenarioVideoSourceState scenarioAttendeeStates).
Proof.
  assert (NoDup
            (map VideoSourceWithType.attendeeId
               (calculateVideoSourcesToBeRendered hasContentModality
                  (scenarioGridState true) scenarioVideoSourceState
                  scenarioAttendeeStates))) as Hids.
  { change (NoDup ["c"; "a"; "b"; "d"; "e"; "f"; "g"; "h"]).
    repeat constructor; simpl; intuition discriminate. }
  split; [exact Hids|].
  exact (proj2 (proj2 (proj2
           (updateDownlinkPreferences_assignment hasContentModality
              (scenarioGridState true) scenarioVideoSourceState
              scenarioAttendeeStates))) Hids).
Defined.

(** A speaker named twice is selected twice and asked of the policy once:
    five tiles, four preferences. *)
Lemma repeated_speaker_one_preference :
  calculateVideoSourcesToBeRendered hasContentModality
    (gridStateOf storeAfterRepeatedSpeaker initialState)
    (videoSourceStateOf storeAfterRepeatedSpeaker initialState)
    (attendeeStatesOf storeAfterRepeatedSpeaker initialState)
  = [sourceWithType "cs#content" "contentShare";
     sourceWithType "a" "activeSpeaker";
     sourceWithType "a" "activeSpeaker";
     sourceWithType "b" "common";
     sourceWithType "c" "common"]
  /\ chosenRemoteVideoSources storeAfterRepeatedSpeaker
     = Some [VideoPreference.Build_t "cs#content" 1 High;
             VideoPreference.Build_t "a" 1 High;
             VideoPreference.Build_t "b" 2 High;
             VideoPreference.Build_t "c" 2 High].
Proof.
  split; reflexivity.
Qed.

(** Scenario A read with the gallery view not zoomed: the selection is not the
    eight tiles with High targets. *)
Lemma scenarioA_not_zoomed_counterexample :
  ~ (calculateVideoSourcesToBeRendered hasContentModality
       (scenarioGridState false) scenarioVideoSourceState scenarioAttendeeStates
     = scenarioExpectedTiles
     /\ Forall (fun preference => VideoPreference.targetSize preference = High)
          (updateDownlinkPreferences hasContentModality (scenarioGridState false)
             scenarioVideoSourceState scenarioAttendeeStates)).
Proof.
  intros [Htiles _].
  apply (f_equal (@List.length VideoSourceWithType.t)) in Htiles.
  vm_compute in Htiles. discriminate Htiles.
Qed.

Lemma featuredView_capacity_witness :
  Z.of_nat
    (countType "activeSpeaker"
       (calculateVideoSourcesToBeRendered hasContentModality scenarioCGridState
          scenarioCVideoSourceState scenarioCAttendeeStates)
     + countType "common"
         (calculateVideoSourcesToBeRendered hasContentModality scenarioCGridState
            scenarioCVideoSourceState scenarioCAttendeeStates))
  <= 2
  /\ Z.of_nat
       (List.length
          (calculateVideoSourcesToBeRendered hasContentModality
             scenarioCGridState scenarioCVideoSourceState
             scenarioCAttendeeStates))
     <= 4.
Proof.
  pose proof (featuredView_capacity hasContentModality scenarioCGridState
                scenarioCVideoSourceState scenarioCAttendeeStates eq_refl)
    as [Hspeakers Hall].
  split; [exact Hspeakers|].
  apply Hall. vm_compute. discriminate.
Defined.

(** A content share among the video sources that no UpdateLocalSourceState has
    announced takes a fifth tile of the featured view. *)
Lemma featuredView_five_tiles_counterexample :
  exists store state,
    dispatchAll hasContentModality storeAtLoad initialState
      [UpdateVideoSources sharedMeetingSources; UpdateGridState FeaturedView]
    = Return (store, state)
    /\ mode (gridStateOf store state) = FeaturedView
    /\ ~ Z.of_nat
           (List.length
              (calculateVideoSourcesToBeRendered hasContentModality
                 (gridStateOf store state) (videoSourceStateOf store state)
                 (attendeeStatesOf store state)))
         <= 4.
Proof.
  eexists. eexists. split; [reflexivity|]. split; [reflexivity|].
  vm_compute. intros H. now apply H.
Qed.

Lemma galleryView_capacity_witness :
  In (sourceWithType "i" "common")
    (calculateVideoSourcesToBeRendered hasContentModality
       (scenarioGridState false) scenarioVideoSourceState scenarioAttendeeStates)
  /\ Z.of_nat
       (List.length
          (calculateVideoSourcesToBeRendered hasContentModality
             (scenarioGridState true) scenarioVideoSourceState
             scenarioAttendeeStates))
     <= 8.
Proof.
  split.
  - apply (proj1 (galleryView_capacity hasContentModality
                    (scenarioGridState false) scenarioVideoSourceState
                    scenarioAttendeeStates eq_refl)).
    + reflexivity.
    + vm_compute. discriminate.
    + simpl. tauto.
    + vm_compute. intuition discriminate.
  - destruct (proj2 (galleryView_capacity hasContentModality
                       (scenarioGridState true) scenarioVideoSourceState
                       scenarioAttendeeStates eq_refl))
      as [_ Hall].
    + reflexivity.
    + vm_compute. discriminate.
    + apply Hall. vm_compute. discriminate.
Defined.

(** Zoomed, with the threshold 8: the unannounced content share is a ninth
    tile. *)
Lemma galleryView_zoomed_nine_tiles_counterexample :
  exists store state,
    dispatchAll hasContentModality storeAtLoad initialState
      [UpdateVideoSources sharedMeetingSources; ZoomIn]
    = Return (store, state)
    /\ mode (gridStateOf store state) = GalleryView
    /\ isZoomed (gridStateOf store state) = true
    /\ ~ Z.of_nat
           (List.length
              (calculateVideoSourcesToBeRendered hasContentModality
                 (gridStateOf store state) (videoSourceStateOf store state)
                 (attendeeStatesOf store state)))
         <= threshold (gridStateOf store state).
Proof.
  eexists. eexists. split; [reflexivity|].
  split; [reflexivity|]. split; [reflexivity|].
  vm_compute. intros H. now apply H.
Qed.

Lemma reducer_unknown_type_throws_witness :
  reducer hasContentModality storeAtLoad initialState
    {| type := 10; payload := Payload.empty |}
  = Throw (Error "Incorrect type in VideoGridStateProvider").
Proof.
  apply reducer_unknown_type_throws. right. reflexivity.
Defined.

Lemma PauseVideoTile_absent_attendee_throws_witness :
  (reducer hasContentModality storeAtLoad initialState (PauseVideoTile "ghost")
   = Throw TypeError
   /\ reducer hasContentModality storeAtLoad initialState
        (UnpauseVideoTile "ghost")
      = Throw TypeError)
  /\ exists store,
      reducer hasContentModality
        (writeAttendeeStates 0%nat scenarioAttendeeStates storeAtLoad)
        initialState (PauseVideoTile "a")
      = Return (store, initialState)
      /\ option_map bandwidthConstrained
           (get "a" (attendeeStatesOf store initialState))
         = Some true.
Proof.
  split.
  - apply (proj1 (PauseVideoTile_absent_attendee_throws hasContentModality
                    storeAtLoad initialState "ghost")).
    simpl. tauto.
  - destruct (proj2 (PauseVideoTile_absent_attendee_throws hasContentModality
                       (writeAttendeeStates 0%nat scenarioAttendeeStates
                          storeAtLoad)
                       initialState "a")) as [Hpause _].
    + simpl. tauto.
    + eexists. split; [exact Hpause | reflexivity].
Defined.

(** C2: the state ResetVideoGridState returns is [initialState], whose objects
    the actions dispatched before have written: after a roster update and a
    change of view the reset state still holds the attendee and the featured
    view. *)
Theorem reset_returns_mutated_initialState :
  exists store,
    dispatchAll hasContentModality storeAtLoad initialState
      [UpdateAttendeeStates
         [("a", {| RosterAttendeeType.chimeAttendeeId := "a";
                   RosterAttendeeType.externalUserId := None;
                   RosterAttendeeType.name := Some "Alice" |})];
       UpdateGridState FeaturedView;
       ResetVideoGridState]
    = Return (store, initialState)
    /\ attendeeStatesOf store initialState
       = [("a", {| attendeeId := "a"; name := "Alice"; videoEnabled := false;
                   bandwidthConstrained := false |})]
    /\ gridStateOf store initialState
       = {| mode := FeaturedView; isZoomed := false; threshold := 8 |}.
Proof.
  eexists. split; [reflexivity|]. split; reflexivity.
Qed.

(** ** The selection gives no attendee two tiles *)

Lemma In_slice0 (A : Type) (l : list A) (n : Z) (x : A) :
  In x (slice0 l n) -> In x l.
Proof.
  unfold slice0. intros Hx.
  rewrite <- (firstn_skipn
                (Z.to_nat
                   (if n <? 0
                    then Z.max (Z.of_nat (List.length l) + n) 0
                    else Z.min n (Z.of_nat (List.length l)))) l).
  apply in_or_app. now left.
Qed.

Lemma NoDup_slice0 (A : Type) (l : list A) (n : Z) :
  NoDup l -> NoDup (slice0 l n).
Proof.
  unfold slice0. intros Hl.
  rewrite <- (firstn_skipn
                (Z.to_nat
                   (if n <? 0
                    then Z.max (Z.of_nat (List.length l) + n) 0
                    else Z.min n (Z.of_nat (List.length l)))) l) in Hl.
  now apply NoDup_app_remove_r in Hl.
Qed.

Lemma activeSpeakerIds_from_speakers (gridState : GridState)
  (videoSourceState : VideoSourceState) (id : string) :
  In id (activeSpeakerIds gridState videoSourceState) ->
  In id (activeSpeakersWithCameraSource videoSourceState).
Proof.
  unfold activeSpeakerIds. destruct (0 <? _); [apply In_slice0 | contradiction].
Qed.

Lemma commonPool_from_cameras (gridState : GridState)
  (videoSourceState : VideoSourceState) (id : string) :
  In id (commonPool gridState videoSourceState) ->
  In id (cameraSources videoSourceState)
  /\ ~ In id (activeSpeakerIds gridState videoSourceState).
Proof.
  unfold commonPool.
  destruct (0 <? Z.of_nat
                   (List.length
                      (activeSpeakersWithCameraSource videoSourceState)))
    eqn:Hany.
  - intros Hid. apply filter_In in Hid. destruct Hid as [Hid Hnot].
    split; [assumption|]. intros Hspeaker.
    apply includes_In in Hspeaker. now rewrite Hspeaker in Hnot.
  - intros Hid. split; [assumption|].
    unfold activeSpeakerIds. rewrite Hany. intros [].
Qed.

Section SelectionTiles.

Variable isContentShare : string -> bool.

(** X1: Where the tiles of a selection come from: a content-share tile is a
    key of attendeeStates that is a content share with its video enabled, an
    active-speaker tile is one of activeSpeakersWithCameraSource, a common
    tile is a camera source that is not an active-speaker tile; and no tile
    has another type. *)
Theorem selection_tile_origin (gridState : GridState)
  (videoSourceState : VideoSourceState) (attendeeStates : AttendeeStates)
  (tile : VideoSourceWithType.t) :
  In tile
    (calculateVideoSourcesToBeRendered isContentShare gridState
       videoSourceState attendeeStates) ->
  let id := VideoSourceWithType.attendeeId tile in
  (VideoSourceWithType.type tile = "contentShare"
   /\ In id (keys attendeeStates)
   /\ isContentShare id = true
   /\ videoEnabledAt id attendeeStates = true)
  \/ (VideoSourceWithType.type tile = "activeSpeaker"
      /\ In id (activeSpeakersWithCameraSource videoSourceState))
  \/ (VideoSourceWithType.type tile = "common"
      /\ In id (cameraSources videoSourceState)
      /\ ~ In (sourceWithType id "activeSpeaker")
           (calculateVideoSourcesToBeRendered isContentShare gridState
              videoSourceState attendeeStates)).
Proof.
  rewrite calculateVideoSourcesToBeRendered_parts.
  intros Htile. apply in_app_or in Htile.
  destruct Htile as [Htile|Htile]; [|apply in_app_or in Htile;
                                     destruct Htile as [Htile|Htile]];
    apply in_map_iff in Htile; destruct Htile as (id & <- & Hid); simpl.
  - left. unfold contentShareIds in Hid. apply filter_In in Hid.
    destruct Hid as [Hkey Htest]. apply andb_true_iff in Htest. tauto.
  - right. left. split; [reflexivity|].
    now apply activeSpeakerIds_from_speakers with (gridState := gridState).
  - right. right. split; [reflexivity|].
    apply In_slice0, commonPool_from_cameras in Hid.
    destruct Hid as [Hcamera Hnot]. split; [assumption|].
    intros Hin. apply Hnot.
    apply in_app_or in Hin. destruct Hin as [Hin|Hin];
      [|apply in_app_or in Hin; destruct Hin as [Hin|Hin]];
      apply in_map_iff in Hin; destruct Hin as (id' & Heq & Hid');
      inversion Heq; subst; assumption.
Qed.

(** X2: With no id twice among the keys of attendeeStates, the active speakers
    and the camera sources, and no content share among the active speakers and
    the camera sources, no attendee has two tiles. *)
Theorem selection_no_attendee_twice (gridState : GridState)
  (videoSourceState : VideoSourceState) (attendeeStates : AttendeeStates) :
  NoDup (keys attendeeStates) ->
  NoDup (activeSpeakersWithCameraSource videoSourceState) ->
  NoDup (cameraSources videoSourceState) ->
  (forall id,
      In id (activeSpeakersWithCameraSource videoSourceState)
      \/ In id (cameraSources videoSourceState) ->
      isContentShare id = false) ->
  NoDup
    (map VideoSourceWithType.attendeeId
       (calculateVideoSourcesToBeRendered isContentShare gridState
          videoSourceState attendeeStates)).
Proof.
  intros Hkeys Hspeakers Hcameras Hnone.
  rewrite calculateVideoSourcesToBeRendered_parts.
  rewrite !map_app, !map_map. simpl. rewrite !map_id.
  assert (NoDup (activeSpeakerIds gridState videoSourceState)) as Hactive.
  { unfold activeSpeakerIds. destruct (0 <? _);
      [now apply NoDup_slice0 | constructor]. }
  assert (NoDup (commonPool gridState videoSourceState)) as Hpool.
  { unfold commonPool.
    destruct (0 <? _); [now apply NoDup_filter | assumption]. }
  apply NoDup_app; [| apply NoDup_app |].
  - unfold contentShareIds. now apply NoDup_filter.
  - assumption.
  - now apply NoDup_slice0.
  - intros id Hid Hcommon.
    apply In_slice0, commonPool_from_cameras in Hcommon. tauto.
  - intros id Hshare Hrest.
    unfold contentShareIds in Hshare. apply filter_In in Hshare.
    destruct Hshare as [_ Htest]. apply andb_true_iff in Htest.
    destruct Htest as [Hcs _].
    assert (isContentShare id = false) as Hnot; [|congruence].
    apply Hnone. apply in_app_or in Hrest. destruct Hrest as [Hid|Hid].
    + left. now apply activeSpeakerIds_from_speakers in Hid.
    + right. now apply In_slice0, commonPool_from_cameras in Hid.
Qed.

End SelectionTiles.

Lemma selection_no_attendee_twice_witness :
  NoDup
    (map VideoSourceWithType.attendeeId
       (calculateVideoSourcesToBeRendered hasContentModality
          (scenarioGridState true) scenarioVideoSourceState
          scenarioAttendeeStates)).
Proof.
  apply selection_no_attendee_twice.
  - repeat (constructor; [simpl; intuition discriminate|]). constructor.
  - repeat (constructor; [simpl; intuition discriminate|]). constructor.
  - repeat (constructor; [simpl; intuition discriminate|]). constructor.
  - intros id [Hid|Hid]; simpl in Hid;
      repeat (destruct Hid as [<-|Hid]; [reflexivity|]); contradiction.
Defined.

Lemma selection_tile_origin_witness :
  In "a" (cameraSources scenarioVideoSourceState)
  /\ ~ In (sourceWithType "a" "activeSpeaker")
         (calculateVideoSourcesToBeRendered hasContentModality
            (scenarioGridState true) scenarioVideoSourceState
            scenarioAttendeeStates).
Proof.
  destruct (selection_tile_origin hasContentModality (scenarioGridState true)
              scenarioVideoSourceState scenarioAttendeeStates
              (sourceWithType "a" "common"))
    as [[Htype _]|[[Htype _]|[_ Hcommon]]].
  - vm_compute. tauto.
  - discriminate Htype.
  - discriminate Htype.
  - exact Hcommon.
Defined.

(** ** Channel messages *)

Lemma strictEquals_eq (a b : option string) :
  strictEquals a b = true <-> a = b.
Proof.
  destruct a as [x|], b as [y|]; simpl; try (split; congruence).
  rewrite String.eqb_eq. split; congruence.
Qed.

Lemma strictEquals_refl (a : option string) : strictEquals a a = true.
Proof. now apply strictEquals_eq. Qed.

Section ProcessChannelMessage.

Variable newMessage : ChannelMessage.t.

Lemma forEach_replaces (current self : list ChannelMessage.t)
  (isDuplicate : bool) :
  fold_left
    (fun '(isDuplicate, self) m =>
       if strictEquals (messageIdOf m) (ChannelMessage.MessageId newMessage)
       then (true, push self newMessage)
       else (isDuplicate, push self m))
    current (isDuplicate, self)
  = (isDuplicate || existsb (isCopyOf newMessage) current,
     self ++ map (replacedBy newMessage) current).
Proof.
  revert self isDuplicate.
  induction current as [|m current IH]; intros self isDuplicate.
  - simpl. now rewrite orb_false_r, app_nil_r.
  - cbn [fold_left existsb map].
    change (strictEquals (messageIdOf m) (ChannelMessage.MessageId newMessage))
      with (isCopyOf newMessage m).
    change (replacedBy newMessage m)
      with (if isCopyOf newMessage m then newMessage else m).
    destruct (isCopyOf newMessage m);
      rewrite IH; unfold push; rewrite <- app_assoc; simpl.
    + now rewrite orb_true_r.
    + reflexivity.
Qed.

(** The loop as a replacement at every index and an append. *)
Theorem processChannelMessage_result (current : list ChannelMessage.t) :
  processChannelMessage current newMessage
  = (map (replacedBy newMessage) current,
     map (replacedBy newMessage) current
       ++ (if negb (existsb (isCopyOf newMessage) current)
              && strictEquals (ChannelMessage.Persistence newMessage)
                   (Some "PERSISTENT")
           then [newMessage]
           else [])).
Proof.
  unfold processChannelMessage. rewrite forEach_replaces. simpl.
  destruct (negb (existsb (isCopyOf newMessage) current)
            && strictEquals (ChannelMessage.Persistence newMessage)
                 (Some "PERSISTENT")).
  - reflexivity.
  - now rewrite app_nil_r.
Qed.

Lemma replaced_fixed (current : list ChannelMessage.t) :
  existsb (isCopyOf newMessage) current = false ->
  map (replacedBy newMessage) current = current.
Proof.
  intros Hnone. apply map_fixed, Forall_forall. intros m Hm.
  unfold replacedBy. destruct (isCopyOf newMessage m) eqn:Hcopy; [|reflexivity].
  assert (existsb (isCopyOf newMessage) current = true) as Hsome
    by (apply existsb_exists; now exists m).
  congruence.
Qed.

(** X18: Without a message of the incoming id, the array in
    [messagesRef.current] is left as it was, and the array given to
    [setMessages] is that array, with the incoming message at its end exactly
    when it is PERSISTENT. *)
Theorem processChannelMessage_new_message (current : list ChannelMessage.t) :
  (forall m,
      In m current ->
      messageIdOf m <> ChannelMessage.MessageId newMessage) ->
  processChannelMessage current newMessage
  = (current,
     if strictEquals (ChannelMessage.Persistence newMessage) (Some "PERSISTENT")
     then current ++ [newMessage]
     else current).
Proof.
  intros Hfresh. rewrite processChannelMessage_result.
  assert (existsb (isCopyOf newMessage) current = false) as Hnone.
  { destruct (existsb (isCopyOf newMessage) current) eqn:Hsome; [|reflexivity].
    apply existsb_exists in Hsome. destruct Hsome as (m & Hm & Hcopy).
    apply strictEquals_eq in Hcopy. now apply Hfresh in Hm. }
  rewrite Hnone, replaced_fixed by assumption. simpl.
  destruct (strictEquals _ _); [reflexivity | now rewrite app_nil_r].
Qed.

(** X19: No message with the incoming id is kept beside the incoming message:
    whatever [setMessages] is given under that id is the incoming message. *)
Theorem processChannelMessage_no_stale_copy (current : list ChannelMessage.t)
  (m : ChannelMessage.t) :
  In m (snd (processChannelMessage current newMessage)) ->
  messageIdOf m = ChannelMessage.MessageId newMessage ->
  m = newMessage.
Proof.
  rewrite processChannelMessage_result. simpl.
  intros Hm Hid. apply in_app_or in Hm. destruct Hm as [Hm|Hm].
  - apply in_map_iff in Hm. destruct Hm as (m0 & <- & _).
    unfold replacedBy in *.
    destruct (isCopyOf newMessage m0) eqn:Hcopy; [reflexivity|].
    apply strictEquals_eq in Hid. unfold isCopyOf in Hcopy. congruence.
  - destruct (negb _ && _); simpl in Hm; [|contradiction].
    destruct Hm as [<-|[]]. reflexivity.
Qed.

(** A duplicate never lengthens the list, and neither does a message that is
    not PERSISTENT. *)
Theorem processChannelMessage_length (current : list ChannelMessage.t) :
  List.length (fst (processChannelMessage current newMessage))
  = List.length current
  /\ List.length (snd (processChannelMessage current newMessage))
     = (List.length current
        + (if negb (existsb (isCopyOf newMessage) current)
              && strictEquals (ChannelMessage.Persistence newMessage)
                   (Some "PERSISTENT")
           then 1 else 0))%nat.
Proof.
  rewrite processChannelMessage_result. simpl.
  rewrite length_app, length_map.
  destruct (negb _ && _); simpl; split; reflexivity.
Qed.

(** X20: For an incoming message filed under its own [MessageId]: processing
    it again, on the array the first call gave [setMessages], changes
    nothing. *)
Theorem processChannelMessage_idempotent (current : list ChannelMessage.t) :
  messageIdOf newMessage = ChannelMessage.MessageId newMessage ->
  processChannelMessage (snd (processChannelMessage current newMessage))
    newMessage
  = (snd (processChannelMessage current newMessage),
     snd (processChannelMessage current newMessage)).
Proof.
  intros Hown.
  assert (isCopyOf newMessage newMessage = true) as Hself
    by (unfold isCopyOf; rewrite Hown; apply strictEquals_refl).
  assert (replacedBy newMessage newMessage = newMessage) as Hnew
    by (unfold replacedBy; now rewrite Hself).
  assert (forall m,
             replacedBy newMessage (replacedBy newMessage m)
             = replacedBy newMessage m) as Hidem.
  { intros m. unfold replacedBy at 2 3.
    destruct (isCopyOf newMessage m) eqn:Hcopy; [exact Hnew|].
    unfold replacedBy. now rewrite Hcopy. }
  assert (existsb (isCopyOf newMessage) current = true ->
          existsb (isCopyOf newMessage) (map (replacedBy newMessage) current)
          = true) as Hkept.
  { intros Hsome. apply existsb_exists in Hsome.
    destruct Hsome as (m & Hm & Hcopy). apply existsb_exists.
    exists newMessage. split; [|assumption].
    apply in_map_iff. exists m. split; [|assumption].
    unfold replacedBy. now rewrite Hcopy. }
  rewrite (processChannelMessage_result current).
  cbn [snd].
  rewrite processChannelMessage_result.
  rewrite map_app, map_map, existsb_app.
  rewrite (map_ext _ _ Hidem).
  destruct (existsb (isCopyOf newMessage) current) eqn:Hsome.
  - rewrite Hkept by reflexivity. simpl. now rewrite !app_nil_r.
  - rewrite (replaced_fixed current Hsome), Hsome.
    destruct (strictEquals (ChannelMessage.Persistence newMessage)
                (Some "PERSISTENT")); simpl.
    + rewrite Hnew, Hself. simpl. now rewrite app_nil_r.
    + now rewrite !app_nil_r.
Qed.

(** X21: Message ids stay distinct: if no id occurs twice in the list and the
    incoming message is filed under its own [MessageId], no id occurs twice in
    the list given to [setMessages]. *)
Theorem processChannelMessage_keeps_ids_distinct
  (current : list ChannelMessage.t) :
  NoDup (map messageIdOf current) ->
  messageIdOf newMessage = ChannelMessage.MessageId newMessage ->
  NoDup (map messageIdOf (snd (processChannelMessage current newMessage))).
Proof.
  intros Hdistinct Hown. rewrite processChannelMessage_result. simpl.
  assert (map messageIdOf (map (replacedBy newMessage) current)
          = map messageIdOf current) as Hids.
  { rewrite map_map. apply map_ext. intros m. unfold replacedBy.
    destruct (isCopyOf newMessage m) eqn:Hcopy; [|reflexivity].
    apply strictEquals_eq in Hcopy. congruence. }
  rewrite map_app, Hids.
  destruct (existsb (isCopyOf newMessage) current) eqn:Hsome; simpl.
  - now rewrite app_nil_r.
  - destruct (strictEquals _ _); simpl; [|now rewrite app_nil_r].
    apply NoDup_app; [assumption | repeat constructor; intros [] |].
    intros id Hid [<-|[]].
    apply in_map_iff in Hid. destruct Hid as (m & Hm & Hin).
    assert (existsb (isCopyOf newMessage) current = true) as Habs;
      [|congruence].
    apply existsb_exists. exists m. split; [assumption|].
    apply strictEquals_eq. congruence.
Qed.

End ProcessChannelMessage.

(** ** Entries of an object under the assignments of the reducer *)

Section ObjectEntries.

Variable V : Type.

Implicit Types (o : JsObject V) (k id : string).

Lemma get_update id k (f : V -> V) o :
  get id (update k f o)
  = if (id =? k)%string then option_map f (get id o) else get id o.
Proof.
  unfold update.
  induction o as [|[k' v] o IH]; simpl.
  - now destruct (id =? k)%string.
  - destruct (String.eqb_spec k' k) as [->|Hk]; simpl.
    + destruct (String.eqb_spec k id) as [->|Hid].
      * now rewrite String.eqb_refl.
      * exact IH.
    + destruct (String.eqb_spec k' id) as [->|Hid].
      * destruct (String.eqb_spec id k) as [->|_]; [congruence | reflexivity].
      * exact IH.
Qed.

Lemma get_updateAll id (f : V -> V) o :
  get id (updateAll f o) = option_map f (get id o).
Proof.
  unfold updateAll.
  induction o as [|[k' v] o IH]; simpl; [reflexivity|].
  now destruct (k' =? id)%string.
Qed.

Lemma get_app id o o' :
  get id (o ++ o')
  = match get id o with
    | Some v => Some v
    | None => get id o'
    end.
Proof.
  induction o as [|[k' v] o IH]; simpl; [reflexivity|].
  now destruct (k' =? id)%string.
Qed.

Lemma get_filter_keys id (q : string -> bool) o :
  get id (filter (fun e => q (fst e)) o) = if q id then get id o else None.
Proof.
  induction o as [|[k v] o IH]; simpl.
  - now destruct (q id).
  - destruct (q k) eqn:Hq; simpl; destruct (String.eqb_spec k id) as [->|Hk].
    + now rewrite Hq.
    + exact IH.
    + rewrite IH. now rewrite Hq.
    + exact IH.
Qed.

Lemma keys_filter (q : string -> bool) o :
  keys (filter (fun e => q (fst e)) o) = filter q (keys o).
Proof.
  unfold keys.
  induction o as [|[k v] o IH]; simpl; [reflexivity|].
  destruct (q k); simpl; now rewrite IH.
Qed.

Lemma keys_app o o' : keys (o ++ o') = keys o ++ keys o'.
Proof. unfold keys. apply map_app. Qed.

Lemma get_In id (v : V) o : get id o = Some v -> In (id, v) o.
Proof.
  induction o as [|[k' v'] o IH]; simpl; [discriminate|].
  destruct (String.eqb_spec k' id) as [->|_].
  - intros H. inversion H. now left.
  - intros H. right. now apply IH.
Qed.

End ObjectEntries.

(** ** What the reducer keeps *)

Section ReducerInvariants.

Variable isContentShare : string -> bool.

(** The reducer returns the state it was given, or [initialState]. *)
Lemma reducer_state (store store' : Store) (state state' : State)
  (action : Action) :
  reducer isContentShare store state action = Return (store', state') ->
  state' = state \/ state' = initialState.
Proof.
  intros H. reducer_cases H; auto.
Qed.

Lemma assign_threshold (r r' : ref) (g : GridState)
  (objects : ref -> GridState) :
  threshold g = threshold (objects r) ->
  threshold (assign r g objects r') = threshold (objects r').
Proof.
  intros Hg. unfold assign.
  destruct (Nat.eqb_spec r' r) as [->|_]; [assumption | reflexivity].
Qed.

Lemma threshold_step (store store' : Store) (state state' : State)
  (action : Action) (r : ref) :
  reducer isContentShare store state action = Return (store', state') ->
  threshold (gridStateObjects store' r) = threshold (gridStateObjects store r).
Proof.
  intros H. reducer_cases H; try reflexivity;
    simpl; now apply assign_threshold.
Qed.

(** X13: No action changes the threshold of any grid state. *)
Theorem reducer_never_changes_threshold (store store' : Store)
  (state state' : State) (action : Action) (r : ref) :
  reducer isContentShare store state action = Return (store', state') ->
  threshold (gridStateObjects store' r) = threshold (gridStateObjects store r).
Proof. apply threshold_step. Qed.

(** *** Attendee maps stay keyed by id *)

Lemma keyedById_filter (q : string -> bool) (attendeeStates : AttendeeStates) :
  keyedById attendeeStates ->
  keyedById (filter (fun e => q (fst e)) attendeeStates).
Proof.
  intros [Hkeys Hids]. split.
  - rewrite keys_filter. now apply NoDup_filter.
  - now apply Forall_filter_keep.
Qed.

Lemma keyedById_update (k : string) (f : AttendeeState -> AttendeeState)
  (attendeeStates : AttendeeStates) :
  (forall a, attendeeId (f a) = attendeeId a) ->
  keyedById attendeeStates -> keyedById (update k f attendeeStates).
Proof.
  intros Hf [Hkeys Hids]. split.
  - now rewrite keys_update.
  - unfold update. apply Forall_map.
    apply Forall_impl with (2 := Hids). intros [k' a] Ha. simpl in *.
    destruct (k' =? k)%string; simpl; [now rewrite Hf | assumption].
Qed.

Lemma keyedById_updateAll (f : AttendeeState -> AttendeeState)
  (attendeeStates : AttendeeStates) :
  (forall a, attendeeId (f a) = attendeeId a) ->
  keyedById attendeeStates -> keyedById (updateAll f attendeeStates).
Proof.
  intros Hf [Hkeys Hids]. split.
  - now rewrite keys_updateAll.
  - unfold updateAll. apply Forall_map.
    apply Forall_impl with (2 := Hids). intros [k' a] Ha. simpl in *.
    now rewrite Hf.
Qed.

Lemma keyedById_put_new (k : string) (a : AttendeeState)
  (attendeeStates : AttendeeStates) :
  has k attendeeStates = false ->
  attendeeId a = k ->
  keyedById attendeeStates -> keyedById (put k a attendeeStates).
Proof.
  intros Hk Ha [Hkeys Hids]. rewrite put_absent by assumption. split.
  - rewrite keys_app. apply NoDup_app; [assumption | |].
    + repeat constructor. intros [].
    + intros k' Hk' [<-|[]]. apply has_false_In in Hk. contradiction.
  - apply Forall_app. split; [assumption|]. now repeat constructor.
Qed.

Lemma keyedById_removeLeftAttendees (roster : RosterType)
  (attendeeStates : AttendeeStates) :
  keyedById attendeeStates ->
  keyedById (removeLeftAttendees isContentShare roster attendeeStates).
Proof.
  intros Hwf. unfold removeLeftAttendees.
  rewrite (fold_delete_filter
             (fun k => negb (isContentShare k) && negb (has k roster))).
  now apply (keyedById_filter
               (fun k => negb ((negb (isContentShare k) && negb (has k roster))
                               && includes (keys attendeeStates) k))).
Qed.

Lemma keyedById_addJoinedAttendees (roster : RosterType)
  (attendeeStates : AttendeeStates) :
  keyedById attendeeStates ->
  keyedById (addJoinedAttendees roster attendeeStates).
Proof.
  unfold addJoinedAttendees. generalize (keys roster) as ks.
  intros ks. revert attendeeStates.
  induction ks as [|k ks IH]; intros attendeeStates Hwf; simpl; [assumption|].
  apply IH. destruct (has k attendeeStates) eqn:Hk.
  - now apply keyedById_update.
  - now apply keyedById_put_new.
Qed.

Lemma keyedById_ensureVideoEnabled (cameraSources : list string)
  (attendeeStates : AttendeeStates) :
  keyedById attendeeStates ->
  keyedById (ensureVideoEnabled cameraSources attendeeStates).
Proof.
  unfold ensureVideoEnabled. revert attendeeStates.
  induction cameraSources as [|k ks IH]; intros attendeeStates Hwf; simpl;
    [assumption|].
  apply IH. destruct (has k attendeeStates); [|assumption].
  now apply keyedById_update.
Qed.

Lemma keyedById_reconcileVideoSources (videoSourceIds : list string)
  (attendeeStates : AttendeeStates) :
  keyedById attendeeStates ->
  keyedById
    (reconcileVideoSources isContentShare videoSourceIds attendeeStates).
Proof.
  intros Hwf. unfold reconcileVideoSources.
  assert (keyedById
            (removeStaleContentShare isContentShare videoSourceIds
               (updateAll (setVideoEnabled false) attendeeStates))) as Hstale.
  { unfold removeStaleContentShare.
    rewrite (fold_delete_filter
               (fun k => isContentShare k && negb (includes videoSourceIds k))).
    apply (keyedById_filter
             (fun k => negb ((isContentShare k
                              && negb (includes videoSourceIds k))
                             && includes
                                  (keys (updateAll (setVideoEnabled false)
                                           attendeeStates)) k))).
    now apply keyedById_updateAll. }
  revert Hstale. unfold enableVideoSources.
  generalize (removeStaleContentShare isContentShare videoSourceIds
                (updateAll (setVideoEnabled false) attendeeStates)) as o.
  induction videoSourceIds as [|k ks IH]; intros o Ho; simpl; [assumption|].
  apply IH. apply keyedById_update; [reflexivity|].
  destruct (has k o) eqn:Hk; simpl; [assumption|].
  destruct (isContentShare k); now apply keyedById_put_new.
Qed.

Lemma keyedById_assign (r r' : ref) (attendeeStates : AttendeeStates)
  (objects : ref -> AttendeeStates) :
  (forall r, keyedById (objects r)) ->
  keyedById attendeeStates ->
  keyedById (assign r attendeeStates objects r').
Proof.
  intros Hall Hnew. unfold assign.
  destruct (Nat.eqb r' r); [assumption | apply Hall].
Qed.

Lemma keyedById_step (store store' : Store) (state state' : State)
  (action : Action) :
  StoreKeyedById store ->
  reducer isContentShare store state action = Return (store', state') ->
  StoreKeyedById store'.
Proof.
  intros Hwf H.
  pose proof (Hwf (attendeeStates state)) as Hstate.
  reducer_cases H; intros r; simpl; try apply Hwf;
    apply keyedById_assign; try assumption.
  - now apply keyedById_ensureVideoEnabled, keyedById_addJoinedAttendees,
      keyedById_removeLeftAttendees.
  - now apply keyedById_reconcileVideoSources.
  - now apply keyedById_update.
  - now apply keyedById_update.
  - now apply keyedById_update.
Qed.

(** X14: Every action keeps every attendee map of the store keyed by id: no
    key twice, every entry under its own [attendeeId]. *)
Theorem reducer_keeps_keyedById (store store' : Store) (state state' : State)
  (action : Action) :
  StoreKeyedById store ->
  reducer isContentShare store state action = Return (store', state') ->
  StoreKeyedById store'.
Proof. apply keyedById_step. Qed.

(** *** Camera sources hold no content share *)

Lemma populateCameraSources_filter (attendeeStates : AttendeeStates) :
  populateCameraSources isContentShare attendeeStates
  = map attendeeId
      (filter
         (fun attendee =>
            videoEnabled attendee
            && negb (isContentShare (attendeeId attendee)))
         (values attendeeStates)).
Proof.
  unfold populateCameraSources.
  now rewrite (fold_left_push_filter
                 (fun attendee =>
                    videoEnabled attendee
                    && negb (isContentShare (attendeeId attendee)))
                 attendeeId).
Qed.

Lemma populateCameraSources_no_content_share (attendeeStates : AttendeeStates) :
  Forall (fun id => isContentShare id = false)
    (populateCameraSources isContentShare attendeeStates).
Proof.
  rewrite populateCameraSources_filter. apply Forall_map, Forall_forall.
  intros a Ha. apply filter_In in Ha. destruct Ha as [_ Ha].
  apply andb_true_iff in Ha. destruct Ha as [_ Ha].
  now apply negb_true_iff in Ha.
Qed.

Lemma CamerasOnly_assign (r r' : ref) (v : VideoSourceState)
  (objects : ref -> VideoSourceState) :
  (forall r, Forall (fun id => isContentShare id = false)
               (cameraSources (objects r))) ->
  Forall (fun id => isContentShare id = false) (cameraSources v) ->
  Forall (fun id => isContentShare id = false)
    (cameraSources (assign r v objects r')).
Proof.
  intros Hall Hnew. unfold assign.
  destruct (Nat.eqb r' r); [assumption | apply Hall].
Qed.

(** Every action keeps the camera sources of the store free of content
    shares. *)
Lemma cameras_only_step (store store' : Store)
  (state state' : State) (action : Action) :
  CamerasOnly isContentShare store ->
  reducer isContentShare store state action = Return (store', state') ->
  CamerasOnly isContentShare store'.
Proof.
  intros Hcams H.
  pose proof (Hcams (videoSourceState state)) as Hstate.
  reducer_cases H; intros r; simpl; try apply Hcams;
    apply CamerasOnly_assign; try assumption; simpl; try assumption.
  apply populateCameraSources_no_content_share.
Qed.

End ReducerInvariants.

(** ** The policy holds the preferences of the current state *)

Section PolicyInvariant.

Variable isContentShare : string -> bool.

Lemma videoEnabledAt_has_false (id : string) (attendeeStates : AttendeeStates) :
  has id attendeeStates = false -> videoEnabledAt id attendeeStates = false.
Proof.
  intros Hid. apply get_None_has in Hid. unfold videoEnabledAt. now rewrite Hid.
Qed.

(** The preferences read the attendee map only for its enabled content
    shares. *)
Lemma updateDownlinkPreferences_attendees (gridState : GridState)
  (videoSourceState : VideoSourceState) (a b : AttendeeStates) :
  contentShareIds isContentShare a = contentShareIds isContentShare b ->
  updateDownlinkPreferences isContentShare gridState videoSourceState a
  = updateDownlinkPreferences isContentShare gridState videoSourceState b.
Proof.
  intros Hsame.
  rewrite !(updateDownlinkPreferences_parts isContentShare). cbv zeta.
  rewrite !calculateVideoSourcesToBeRendered_parts.
  now rewrite Hsame.
Qed.

Lemma contentShareIds_update (k : string) (f : AttendeeState -> AttendeeState)
  (attendeeStates : AttendeeStates) :
  (forall a, videoEnabled (f a) = videoEnabled a) \/ isContentShare k = false ->
  contentShareIds isContentShare (update k f attendeeStates)
  = contentShareIds isContentShare attendeeStates.
Proof.
  intros Hkeep. unfold contentShareIds. rewrite keys_update.
  apply filter_ext. intros id. unfold videoEnabledAt. rewrite get_update.
  destruct (String.eqb_spec id k) as [->|_]; [|reflexivity].
  destruct Hkeep as [Hf|Hk].
  - destruct (get k attendeeStates); simpl; [now rewrite Hf | reflexivity].
  - now rewrite Hk.
Qed.

Lemma contentShareIds_put_new (k : string) (a : AttendeeState)
  (attendeeStates : AttendeeStates) :
  has k attendeeStates = false ->
  videoEnabled a = false ->
  contentShareIds isContentShare (put k a attendeeStates)
  = contentShareIds isContentShare attendeeStates.
Proof.
  intros Hk Ha. rewrite put_absent by assumption.
  unfold contentShareIds. rewrite keys_app, filter_app. simpl.
  assert (videoEnabledAt k (attendeeStates ++ [(k, a)]) = false) as Hnew.
  { unfold videoEnabledAt. rewrite get_app.
    apply get_None_has in Hk. rewrite Hk. simpl.
    now rewrite String.eqb_refl. }
  rewrite Hnew, andb_false_r, app_nil_r.
  apply filter_ext_in. intros id Hid. f_equal.
  unfold videoEnabledAt. rewrite get_app.
  destruct (get id attendeeStates) eqn:Hget; [reflexivity|].
  apply get_None_has, has_false_In in Hget. contradiction.
Qed.

Lemma contentShareIds_filter (q : string -> bool)
  (attendeeStates : AttendeeStates) :
  (forall id, isContentShare id = true -> q id = true) ->
  contentShareIds isContentShare (filter (fun e => q (fst e)) attendeeStates)
  = contentShareIds isContentShare attendeeStates.
Proof.
  intros Hq. unfold contentShareIds.
  rewrite keys_filter, filter_filter_andb.
  apply filter_ext. intros id. unfold videoEnabledAt.
  rewrite get_filter_keys.
  destruct (isContentShare id) eqn:Hid.
  - now rewrite (Hq id Hid).
  - now rewrite andb_false_r.
Qed.

(** A roster update leaves the enabled content shares as they were. *)
Lemma contentShareIds_UpdateAttendeeStates (roster : RosterType)
  (cameraSources : list string) (attendeeStates : AttendeeStates) :
  Forall (fun id => isContentShare id = false) cameraSources ->
  contentShareIds isContentShare
    (ensureVideoEnabled cameraSources
       (addJoinedAttendees roster
          (removeLeftAttendees isContentShare roster attendeeStates)))
  = contentShareIds isContentShare attendeeStates.
Proof.
  intros Hcams.
  transitivity (contentShareIds isContentShare
                  (addJoinedAttendees roster
                     (removeLeftAttendees isContentShare roster
                        attendeeStates))).
  { unfold ensureVideoEnabled.
    generalize (addJoinedAttendees roster
                  (removeLeftAttendees isContentShare roster attendeeStates))
      as o.
    induction Hcams as [|k ks Hk _ IH]; intros o; simpl; [reflexivity|].
    rewrite IH. destruct (has k o); [|reflexivity].
    apply contentShareIds_update. now right. }
  transitivity (contentShareIds isContentShare
                  (removeLeftAttendees isContentShare roster attendeeStates)).
  { unfold addJoinedAttendees. generalize (keys roster) as ks.
    generalize (removeLeftAttendees isContentShare roster attendeeStates) as o.
    intros o ks. revert o.
    induction ks as [|k ks IH]; intros o; simpl; [reflexivity|].
    rewrite IH. destruct (has k o) eqn:Hk.
    - apply contentShareIds_update. now left.
    - now apply contentShareIds_put_new. }
  unfold removeLeftAttendees.
  rewrite (fold_delete_filter
             (fun k => negb (isContentShare k) && negb (has k roster))).
  apply (contentShareIds_filter
           (fun k => negb ((negb (isContentShare k) && negb (has k roster))
                           && includes (keys attendeeStates) k))).
  intros id Hid. now rewrite Hid.
Qed.

Lemma PolicyCurrent_attendees (store : Store) (state : State)
  (attendeeStates' : AttendeeStates) :
  contentShareIds isContentShare attendeeStates'
  = contentShareIds isContentShare (attendeeStatesOf store state) ->
  PolicyCurrent isContentShare store state ->
  PolicyCurrent isContentShare
    (writeAttendeeStates (attendeeStates state) attendeeStates' store) state.
Proof.
  intros Hsame [Hnone|Hsome]; [now left | right].
  unfold gridStateOf, videoSourceStateOf. rewrite attendeeStatesOf_write.
  simpl. rewrite Hsome. f_equal.
  symmetry. now apply updateDownlinkPreferences_attendees.
Qed.

Lemma policy_current_step (store store' : Store) (state : State)
  (action : Action) :
  CamerasOnly isContentShare store ->
  PolicyCurrent isContentShare store state ->
  reducer isContentShare store state action = Return (store', state) ->
  PolicyCurrent isContentShare store' state.
Proof.
  intros Hcams Hpolicy H.
  pose proof (Hcams (videoSourceState state)) as Hstate.
  reducer_cases H; try assumption; try (right; reflexivity).
  - apply PolicyCurrent_attendees; [|assumption].
    now apply contentShareIds_UpdateAttendeeStates.
  - apply PolicyCurrent_attendees; [|assumption].
    apply contentShareIds_update. now left.
  - apply PolicyCurrent_attendees; [|assumption].
    apply contentShareIds_update. now left.
Qed.

(** X15: Once the camera sources hold no content share, an action that returns
    the state it was given leaves the policy with the preferences of that
    state (or never called): a roster update, a pause and an unpause, which do
    not call the policy, do not change what it would be given. *)
Theorem reducer_keeps_policy_current (store store' : Store) (state : State)
  (action : Action) :
  CamerasOnly isContentShare store ->
  PolicyCurrent isContentShare store state ->
  reducer isContentShare store state action = Return (store', state) ->
  PolicyCurrent isContentShare store' state.
Proof. apply policy_current_step. Qed.

(** *** States reached from the initial state *)

Lemma dispatchAll_app (store : Store) (state : State)
  (actions actions' : list Action) :
  dispatchAll isContentShare store state (actions ++ actions')
  = match dispatchAll isContentShare store state actions with
    | Return (store', state') =>
        dispatchAll isContentShare store' state' actions'
    | Throw error => Throw error
    end.
Proof.
  revert store state.
  induction actions as [|action actions IH]; intros store state; simpl.
  - reflexivity.
  - destruct (reducer isContentShare store state action) as [[store1 state1]|];
      [apply IH | reflexivity].
Qed.

(** From [initialState], every state returned is [initialState]: the reducer
    hands back the same three objects whatever was dispatched. *)
Lemma dispatchAll_state (store store' : Store)
  (state' : State) (actions : list Action) :
  dispatchAll isContentShare store initialState actions
  = Return (store', state') ->
  state' = initialState.
Proof.
  revert store.
  induction actions as [|action actions IH]; intros store H; simpl in H.
  - now inversion H.
  - destruct (reducer isContentShare store initialState action)
      as [[store1 state1]|] eqn:Hstep; [|discriminate].
    apply reducer_state in Hstep.
    assert (state1 = initialState) as -> by tauto.
    now apply IH in H.
Qed.

(** X16: After any actions dispatched from [initialState], the state is still
    [initialState] and ResetVideoGridState returns the state and the store it
    found: the attendees, the sources and the grid state stay as the actions
    left them. *)
Theorem ResetVideoGridState_resets_nothing (store store' : Store)
  (state' : State) (actions : list Action) :
  dispatchAll isContentShare store initialState actions
  = Return (store', state') ->
  state' = initialState
  /\ dispatchAll isContentShare store initialState
       (actions ++ [ResetVideoGridState])
     = Return (store', state').
Proof.
  intros H. rewrite dispatchAll_app, H.
  apply dispatchAll_state in H. subst state'.
  split; reflexivity.
Qed.

(** X17: What holds of every store reached from the loaded module: attendee
    maps keyed by id, cameras without content share, the threshold 8, and the
    policy with the preferences of the current state if it was ever called. *)
Theorem reachable_invariants (store' : Store) (state' : State)
  (actions : list Action) :
  dispatchAll isContentShare storeAtLoad initialState actions
  = Return (store', state') ->
  StoreKeyedById store'
  /\ CamerasOnly isContentShare store'
  /\ (forall r, threshold (gridStateObjects store' r) = 8)
  /\ PolicyCurrent isContentShare store' state'.
Proof.
  assert (forall store,
             StoreKeyedById store
             /\ CamerasOnly isContentShare store
             /\ (forall r, threshold (gridStateObjects store r) = 8)
             /\ PolicyCurrent isContentShare store initialState ->
             dispatchAll isContentShare store initialState actions
             = Return (store', state') ->
             StoreKeyedById store'
             /\ CamerasOnly isContentShare store'
             /\ (forall r, threshold (gridStateObjects store' r) = 8)
             /\ PolicyCurrent isContentShare store' state') as Hgeneral.
  { induction actions as [|action actions IH];
      intros store (Hkeyed & Hcams & Hthreshold & Hpolicy) H; simpl in H.
    - inversion H; subst. tauto.
    - destruct (reducer isContentShare store initialState action)
        as [[store1 state1]|] eqn:Hstep; [|discriminate].
      pose proof (reducer_state isContentShare _ _ _ Hstep) as Hstate.
      assert (state1 = initialState) as -> by tauto.
      apply (IH store1); [|assumption].
      split; [eapply keyedById_step; eassumption|].
      split; [eapply cameras_only_step; eassumption|].
      split; [|eapply policy_current_step; eassumption].
      intros r.
      rewrite (threshold_step isContentShare _ _ _ r Hstep).
      apply Hthreshold. }
  apply Hgeneral. repeat split.
  - constructor.
  - constructor.
  - intros r. constructor.
  - now left.
Qed.

End PolicyInvariant.

(** ** What the cases write *)

Section CaseEffects.

Variable isContentShare : string -> bool.

(** *** UpdateVideoSources *)

Lemma NoDup_map_filter (A B : Type) (f : A -> B) (g : A -> bool) (l : list A) :
  NoDup (map f l) -> NoDup (map f (filter g l)).
Proof.
  induction l as [|x l IH]; simpl; intros Hl; [constructor|].
  inversion Hl as [|y l' Hx Hrest]; subst.
  destruct (g x); simpl; [|now apply IH].
  constructor; [|now apply IH].
  intros Hin. apply Hx. apply in_map_iff in Hin.
  destruct Hin as (z & Hz & Hin). apply filter_In in Hin.
  apply in_map_iff. exists z. tauto.
Qed.

(** X4: After UpdateVideoSources the keys of attendeeStates are the keys it
    had, less the content shares that are not among the sources, and the
    sources; and [videoEnabled] is set for the sources and for no other
    attendee. *)
Theorem UpdateVideoSources_attendees (store : Store) (state : State)
  (videoSources : list VideoSource.t) :
  exists store',
    reducer isContentShare store state (UpdateVideoSources videoSources)
    = Return (store', state)
    /\ (forall id,
           In id (keys (attendeeStatesOf store' state))
           <-> (In id (keys (attendeeStatesOf store state))
                /\ ~ (isContentShare id = true
                      /\ ~ In id (videoSourceIdsOf videoSources)))
               \/ In id (videoSourceIdsOf videoSources))
    /\ (forall id,
           videoEnabledAt id (attendeeStatesOf store' state)
           = includes (videoSourceIdsOf videoSources) id).
Proof.
  destruct (reducer_UpdateVideoSources isContentShare store state videoSources)
    as (store' & Hreturn & Hattendees & _).
  exists store'. split; [assumption|]. rewrite Hattendees.
  set (ids := videoSourceIdsOf videoSources).
  split; intros id.
  - rewrite <- !has_In, has_reconcileVideoSources.
    rewrite <- (includes_In ids id).
    destruct (has id (attendeeStatesOf store state)), (isContentShare id),
      (includes ids id); simpl; intuition congruence.
  - unfold videoEnabledAt.
    destruct (get id (reconcileVideoSources isContentShare ids
                        (attendeeStatesOf store state))) as [a|] eqn:Hget.
    + apply get_In in Hget.
      pose proof (reconcileVideoSources_videoEnabled isContentShare ids
                    (attendeeStatesOf store state)) as Hall.
      rewrite Forall_forall in Hall. exact (Hall _ Hget).
    + apply get_None_has in Hget. rewrite has_reconcileVideoSources in Hget.
      apply orb_false_iff in Hget. now destruct Hget as [_ ->].
Qed.

(** X5: With attendeeStates keyed by id, the cameraSources UpdateVideoSources
    leaves are the sources that are not content shares, each once, however
    often the source list repeats an id. *)
Theorem UpdateVideoSources_cameraSources (store : Store) (state : State)
  (videoSources : list VideoSource.t) :
  keyedById (attendeeStatesOf store state) ->
  exists store',
    reducer isContentShare store state (UpdateVideoSources videoSources)
    = Return (store', state)
    /\ NoDup (cameraSources (videoSourceStateOf store' state))
    /\ (forall id,
           In id (cameraSources (videoSourceStateOf store' state))
           <-> In id (videoSourceIdsOf videoSources)
               /\ isContentShare id = false).
Proof.
  intros Hkeyed.
  destruct (reducer_UpdateVideoSources isContentShare store state videoSources)
    as (store' & Hreturn & _ & Hsources & _).
  exists store'. split; [assumption|]. rewrite Hsources. simpl.
  set (ids := videoSourceIdsOf videoSources).
  pose proof (keyedById_reconcileVideoSources isContentShare ids Hkeyed)
    as [Hkeys Hfiled].
  pose proof (reconcileVideoSources_videoEnabled isContentShare ids
                (attendeeStatesOf store state)) as Henabled.
  set (attendeeStates' :=
         reconcileVideoSources isContentShare ids
           (attendeeStatesOf store state)) in *.
  rewrite populateCameraSources_filter.
  rewrite Forall_forall in Hfiled, Henabled.
  split.
  - apply NoDup_map_filter.
    replace (map attendeeId (values attendeeStates'))
      with (keys attendeeStates'); [assumption|].
    unfold keys, values. rewrite map_map. apply map_ext_in.
    intros e He. symmetry. now apply Hfiled.
  - intros id. rewrite in_map_iff. split.
    + intros (a & <- & Ha). apply filter_In in Ha. destruct Ha as [Ha Htest].
      apply in_map_iff in Ha. destruct Ha as (e & Hsnd & Hin).
      pose proof (Hfiled e Hin) as Hid. pose proof (Henabled e Hin) as Hon.
      cbv beta in Hid, Hon. rewrite Hsnd in Hid, Hon.
      apply andb_true_iff in Htest. destruct Htest as [Hvideo Hcamera].
      apply negb_true_iff in Hcamera.
      split; [|assumption].
      rewrite Hid. apply includes_In. congruence.
    + intros [Hsource Hcamera].
      assert (has id attendeeStates' = true) as Hkey.
      { unfold attendeeStates'. rewrite has_reconcileVideoSources.
        apply includes_In in Hsource. rewrite Hsource. apply orb_true_r. }
      destruct (get id attendeeStates') as [a|] eqn:Hget.
      * apply get_In in Hget. exists a.
        pose proof (Hfiled _ Hget) as Hid. simpl in Hid.
        split; [assumption|]. apply filter_In. split.
        -- apply in_map_iff. now exists (id, a).
        -- pose proof (Henabled _ Hget) as Hon. simpl in Hon.
           apply includes_In in Hsource.
           now rewrite Hon, Hid, Hsource, Hcamera.
      * apply get_None_has in Hget. congruence.
Qed.

(** *** UpdateAttendeeStates *)

(** X6: The keys after UpdateAttendeeStates are the roster's and the content
    shares attendeeStates had, and no other. *)
Theorem UpdateAttendeeStates_exact_keys (store : Store) (state : State)
  (roster : RosterType) :
  exists store',
    reducer isContentShare store state (UpdateAttendeeStates roster)
    = Return (store', state)
    /\ forall id,
         In id (keys (attendeeStatesOf store' state))
         <-> In id (keys roster)
             \/ (In id (keys (attendeeStatesOf store state))
                 /\ isContentShare id = true).
Proof.
  eexists. split; [apply reducer_UpdateAttendeeStates|].
  rewrite attendeeStatesOf_write. intros id.
  rewrite <- !has_In.
  rewrite has_ensureVideoEnabled, has_addJoinedAttendees,
    has_removeLeftAttendees.
  destruct (has id (attendeeStatesOf store state)), (isContentShare id),
    (has id roster); simpl; intuition congruence.
Qed.

Lemma get_removeLeftAttendees (id : string) (roster : RosterType)
  (attendeeStates : AttendeeStates) :
  isContentShare id = true \/ has id roster = true ->
  get id (removeLeftAttendees isContentShare roster attendeeStates)
  = get id attendeeStates.
Proof.
  intros Hkept. unfold removeLeftAttendees.
  rewrite (fold_delete_filter
             (fun k => negb (isContentShare k) && negb (has k roster))).
  rewrite (get_filter_keys id
             (fun k => negb ((negb (isContentShare k) && negb (has k roster))
                             && includes (keys attendeeStates) k))).
  destruct Hkept as [-> | ->]; simpl; [reflexivity|].
  now rewrite andb_false_r.
Qed.

Lemma get_addJoinedAttendees (id : string) (roster : RosterType)
  (attendeeStates : AttendeeStates) :
  get id (addJoinedAttendees roster attendeeStates)
  = if has id roster
    then Some match get id attendeeStates with
              | Some a => setName (rosterName roster id) a
              | None =>
                  {| attendeeId := id; name := rosterName roster id;
                     videoEnabled := false; bandwidthConstrained := false |}
              end
    else get id attendeeStates.
Proof.
  unfold addJoinedAttendees. rewrite (has_includes_keys id roster).
  generalize (keys roster) as ks. intros ks. revert attendeeStates.
  induction ks as [|k ks IH]; intros o; [reflexivity|].
  cbn [fold_left]. rewrite IH. clear IH.
  unfold includes. cbn [existsb]. fold (includes ks id).
  destruct (String.eqb_spec id k) as [->|Hk]; cbn [orb].
  - destruct (has k o) eqn:Hhas.
    + rewrite get_update, String.eqb_refl.
      destruct (get k o) as [a|] eqn:Hget.
      * simpl. now destruct (includes ks k).
      * apply get_None_has in Hget. congruence.
    + rewrite put_absent, get_app by assumption.
      apply get_None_has in Hhas. rewrite Hhas. simpl.
      rewrite String.eqb_refl. now destruct (includes ks k).
  - assert (get id (if has k o
                    then update k (setName (rosterName roster k)) o
                    else put k
                           {| attendeeId := k; name := rosterName roster k;
                              videoEnabled := false;
                              bandwidthConstrained := false |} o)
            = get id o) as Hsame.
    { destruct (has k o) eqn:Hhas.
      - rewrite get_update. now destruct (String.eqb_spec id k).
      - rewrite put_absent, get_app by assumption.
        destruct (get id o); [reflexivity|]. simpl.
        destruct (String.eqb_spec k id); [congruence | reflexivity]. }
    now rewrite Hsame.
Qed.

Lemma get_ensureVideoEnabled (id : string) (cameraSources : list string)
  (attendeeStates : AttendeeStates) :
  get id (ensureVideoEnabled cameraSources attendeeStates)
  = if includes cameraSources id
    then option_map (setVideoEnabled true) (get id attendeeStates)
    else get id attendeeStates.
Proof.
  unfold ensureVideoEnabled. revert attendeeStates.
  induction cameraSources as [|k ks IH]; intros o; [reflexivity|].
  cbn [fold_left]. rewrite IH. clear IH.
  unfold includes. cbn [existsb]. fold (includes ks id).
  assert (get id (if has k o then update k (setVideoEnabled true) o else o)
          = if (id =? k)%string
            then option_map (setVideoEnabled true) (get id o)
            else get id o) as Hstep.
  { destruct (has k o) eqn:Hhas; [apply get_update|].
    destruct (String.eqb_spec id k) as [->|_]; [|reflexivity].
    apply get_None_has in Hhas. now rewrite Hhas. }
  rewrite Hstep.
  destruct (id =? k)%string; cbn [orb]; [|reflexivity].
  destruct (includes ks id); [|reflexivity].
  now destruct (get id o).
Qed.

(** The entry of an attendee of the roster, as the three loops leave it. *)
Lemma UpdateAttendeeStates_get (store : Store) (state : State)
  (roster : RosterType) (id : string) :
  In id (keys roster) ->
  exists store',
    reducer isContentShare store state (UpdateAttendeeStates roster)
    = Return (store', state)
    /\ get id (attendeeStatesOf store' state)
       = Some
           (let joined :=
              match get id (attendeeStatesOf store state) with
              | Some a => setName (rosterName roster id) a
              | None =>
                  {| attendeeId := id; name := rosterName roster id;
                     videoEnabled := false; bandwidthConstrained := false |}
              end in
            if includes (cameraSources (videoSourceStateOf store state)) id
            then setVideoEnabled true joined
            else joined).
Proof.
  intros Hroster. apply has_In in Hroster.
  eexists. split; [apply reducer_UpdateAttendeeStates|].
  rewrite attendeeStatesOf_write.
  rewrite get_ensureVideoEnabled, get_addJoinedAttendees, Hroster.
  rewrite get_removeLeftAttendees by now right.
  cbv zeta. now destruct (includes _ id).
Qed.

(** X7: An attendee of the roster has an entry after UpdateAttendeeStates.
    Its name is the roster's name, the empty string when the roster gives
    none; its attendeeId and bandwidthConstrained are those of the entry it
    had, or the id and false for an attendee that joins; its videoEnabled is
    that of the entry it had (false for one that joins), and set in either
    case if the id is among cameraSources. *)
Theorem UpdateAttendeeStates_entry (store : Store) (state : State)
  (roster : RosterType) (id : string) :
  In id (keys roster) ->
  exists store' entry,
    reducer isContentShare store state (UpdateAttendeeStates roster)
    = Return (store', state)
    /\ get id (attendeeStatesOf store' state) = Some entry
    /\ name entry
       = match get id roster with
         | Some attendee =>
             match RosterAttendeeType.name attendee with
             | Some n => n
             | None => ""
             end
         | None => ""
         end
    /\ attendeeId entry
       = match get id (attendeeStatesOf store state) with
         | Some before => attendeeId before
         | None => id
         end
    /\ videoEnabled entry
       = match get id (attendeeStatesOf store state) with
         | Some before => videoEnabled before
         | None => false
         end
         || includes (cameraSources (videoSourceStateOf store state)) id
    /\ bandwidthConstrained entry
       = match get id (attendeeStatesOf store state) with
         | Some before => bandwidthConstrained before
         | None => false
         end.
Proof.
  intros Hroster.
  destruct (UpdateAttendeeStates_get store state roster id Hroster)
    as (store' & Hreturn & Hget).
  exists store'. eexists. split; [exact Hreturn|]. split; [exact Hget|].
  cbv zeta. unfold rosterName.
  destruct (get id (attendeeStatesOf store state)) as [before|],
    (includes (cameraSources (videoSourceStateOf store state)) id);
    simpl; rewrite ?orb_true_r, ?orb_false_r; repeat split.
Qed.

(** *** PauseVideoTile and UnpauseVideoTile *)

Lemma reducer_pause_present (store : Store) (state : State) (id : string) :
  In id (keys (attendeeStatesOf store state)) ->
  reducer isContentShare store state (PauseVideoTile id)
  = Return
      (writeAttendeeStates (attendeeStates state)
         (update id (setBandwidthConstrained true)
            (attendeeStatesOf store state)) store,
       state)
  /\ reducer isContentShare store state (UnpauseVideoTile id)
     = Return
         (writeAttendeeStates (attendeeStates state)
            (update id (setBandwidthConstrained false)
               (attendeeStatesOf store state)) store,
          state).
Proof.
  intros Hkey. apply has_In in Hkey.
  destruct (get id (attendeeStatesOf store state)) as [attendee|] eqn:Hget.
  - unfold reducer. simpl. now rewrite Hget.
  - apply get_None_has in Hget. congruence.
Qed.

(** X9: For an attendee that is a key, PauseVideoTile returns with
    bandwidthConstrained of that attendee true, and UnpauseVideoTile after
    it returns with it false; attendeeId, name and videoEnabled of the
    attendee, every other entry, the keys, the grid state, the video sources
    and the preferences of the policy are as they were before the two. *)
Theorem PauseVideoTile_then_UnpauseVideoTile (store : Store) (state : State)
  (id : string) (attendee : AttendeeState) :
  get id (attendeeStatesOf store state) = Some attendee ->
  exists paused store' whilePaused afterwards,
    reducer isContentShare store state (PauseVideoTile id)
    = Return (paused, state)
    /\ get id (attendeeStatesOf paused state) = Some whilePaused
    /\ bandwidthConstrained whilePaused = true
    /\ reducer isContentShare paused state (UnpauseVideoTile id)
       = Return (store', state)
    /\ dispatchAll isContentShare store state
         [PauseVideoTile id; UnpauseVideoTile id]
       = Return (store', state)
    /\ get id (attendeeStatesOf store' state) = Some afterwards
    /\ bandwidthConstrained afterwards = false
    /\ attendeeId afterwards = attendeeId attendee
    /\ name afterwards = name attendee
    /\ videoEnabled afterwards = videoEnabled attendee
    /\ (forall k,
           k <> id ->
           get k (attendeeStatesOf store' state)
           = get k (attendeeStatesOf store state))
    /\ keys (attendeeStatesOf store' state)
       = keys (attendeeStatesOf store state)
    /\ gridStateOf store' state = gridStateOf store state
    /\ videoSourceStateOf store' state = videoSourceStateOf store state
    /\ chosenRemoteVideoSources store' = chosenRemoteVideoSources store.
Proof.
  intros Hget.
  assert (In id (keys (attendeeStatesOf store state))) as Hkey.
  { apply has_In. destruct (has id (attendeeStatesOf store state)) eqn:Hhas;
      [reflexivity|].
    apply get_None_has in Hhas. congruence. }
  destruct (reducer_pause_present store state id Hkey) as [Hpause _].
  set (paused := writeAttendeeStates (attendeeStates state)
                   (update id (setBandwidthConstrained true)
                      (attendeeStatesOf store state)) store) in *.
  assert (In id (keys (attendeeStatesOf paused state))) as Hkey'.
  { unfold paused. now rewrite attendeeStatesOf_write, keys_update. }
  destruct (reducer_pause_present paused state id Hkey') as [_ Hunpause].
  assert (get id (attendeeStatesOf paused state)
          = Some (setBandwidthConstrained true attendee)) as Hpaused.
  { unfold paused. rewrite attendeeStatesOf_write, get_update.
    now rewrite String.eqb_refl, Hget. }
  exists paused. eexists.
  exists (setBandwidthConstrained true attendee).
  exists (setBandwidthConstrained false (setBandwidthConstrained true attendee)).
  split; [exact Hpause|]. split; [exact Hpaused|]. split; [reflexivity|].
  split; [exact Hunpause|].
  split; [cbn [dispatchAll]; rewrite Hpause, Hunpause; reflexivity|].
  rewrite !attendeeStatesOf_write.
  split; [rewrite get_update, String.eqb_refl, Hpaused; reflexivity|].
  repeat (split; [reflexivity|]).
  split.
  - intros k Hk. unfold paused.
    rewrite attendeeStatesOf_write, !get_update.
    destruct (String.eqb_spec k id); [contradiction | reflexivity].
  - unfold paused. rewrite attendeeStatesOf_write, !keys_update.
    repeat split.
Qed.

End CaseEffects.

(** ** What the cases leave alone *)

Section Frames.

Variable isContentShare : string -> bool.

Lemma keys_assign_update (r r' : ref) (k : string)
  (f : AttendeeState -> AttendeeState) (objects : ref -> AttendeeStates) :
  keys (assign r (update k f (objects r)) objects r') = keys (objects r').
Proof.
  unfold assign. destruct (Nat.eqb_spec r' r) as [->|_]; [|reflexivity].
  apply keys_update.
Qed.

(** X11: Only UpdateAttendeeStates and UpdateVideoSources add or remove an
    attendee: every other action leaves the keys of every attendee map, in
    their order. *)
Theorem reducer_keeps_attendee_keys (store store' : Store)
  (state state' : State) (action : Action) (r : ref) :
  reducer isContentShare store state action = Return (store', state') ->
  type action <> VideoGridAction.UpdateAttendeeStates ->
  type action <> VideoGridAction.UpdateVideoSources ->
  keys (attendeeStatesObjects store' r) = keys (attendeeStatesObjects store r).
Proof.
  intros H Hroster Hsources.
  reducer_cases H; try contradiction; try reflexivity;
    simpl; apply keys_assign_update.
Qed.

(** X12: ResetVideoGridState, UpdateAttendeeStates, PauseVideoTile and
    UnpauseVideoTile never call the policy and never write a grid state or a
    video source state. *)
Theorem reducer_quiet_cases (store store' : Store) (state state' : State)
  (action : Action) :
  reducer isContentShare store state action = Return (store', state') ->
  type action = VideoGridAction.ResetVideoGridState
  \/ type action = VideoGridAction.UpdateAttendeeStates
  \/ type action = VideoGridAction.PauseVideoTile
  \/ type action = VideoGridAction.UnpauseVideoTile ->
  chosenRemoteVideoSources store' = chosenRemoteVideoSources store
  /\ (forall r, gridStateObjects store' r = gridStateObjects store r)
  /\ (forall r,
         videoSourceStateObjects store' r = videoSourceStateObjects store r).
Proof.
  intros H Htype.
  unfold VideoGridAction.ResetVideoGridState,
    VideoGridAction.UpdateAttendeeStates, VideoGridAction.PauseVideoTile,
    VideoGridAction.UnpauseVideoTile in Htype.
  reducer_cases H;
    repeat match goal with
           | e : type action = ?c |- _ => unfold c in e
           end;
    try lia; repeat split.
Qed.

Lemma reducer_ZoomIn (store : Store) (state : State) :
  reducer isContentShare store state ZoomIn
  = if threshold (gridStateOf store state)
       <? Z.of_nat
            (List.length (cameraSources (videoSourceStateOf store state)))
          + oneIf (hasLocalVideo (videoSourceStateOf store state))
    then Return
           (pushDownlinkPreferences isContentShare state
              (writeGridState (gridState state)
                 (setIsZoomed true (gridStateOf store state)) store),
            state)
    else Return (store, state).
Proof. reflexivity. Qed.

Lemma reducer_ZoomOut (store : Store) (state : State) :
  reducer isContentShare store state ZoomOut
  = if isZoomed (gridStateOf store state)
    then Return
           (pushDownlinkPreferences isContentShare state
              (writeGridState (gridState state)
                 (setIsZoomed false (gridStateOf store state)) store),
            state)
    else Return (store, state).
Proof. reflexivity. Qed.

Lemma gridStateOf_write (store : Store) (state : State) (g : GridState) :
  gridStateOf
    (pushDownlinkPreferences isContentShare state
       (writeGridState (gridState state) g store)) state
  = g.
Proof. unfold gridStateOf. simpl. apply assign_same. Qed.

(** X10: ZoomIn and then ZoomOut returns with the grid not zoomed, whatever it
    was before and whether or not ZoomIn zoomed; the mode, the threshold, the
    attendees and the video sources are as they were. *)
Theorem ZoomIn_then_ZoomOut (store : Store) (state : State) :
  exists store',
    dispatchAll isContentShare store state [ZoomIn; ZoomOut]
    = Return (store', state)
    /\ isZoomed (gridStateOf store' state) = false
    /\ mode (gridStateOf store' state) = mode (gridStateOf store state)
    /\ threshold (gridStateOf store' state)
       = threshold (gridStateOf store state)
    /\ attendeeStatesOf store' state = attendeeStatesOf store state
    /\ videoSourceStateOf store' state = videoSourceStateOf store state.
Proof.
  cbn [dispatchAll]. rewrite reducer_ZoomIn.
  destruct (threshold (gridStateOf store state) <? _).
  - rewrite reducer_ZoomOut, gridStateOf_write. cbn [isZoomed setIsZoomed].
    eexists. split; [reflexivity|].
    rewrite gridStateOf_write. repeat split.
  - rewrite reducer_ZoomOut.
    destruct (isZoomed (gridStateOf store state)) eqn:Hzoomed.
    + eexists. split; [reflexivity|].
      rewrite gridStateOf_write. repeat split.
    + eexists. split; [reflexivity|]. repeat split. assumption.
Qed.

End Frames.

(** ** The properties on the example meeting *)

Lemma storeAtLoad_keyedById : StoreKeyedById storeAtLoad.
Proof. intros r. split; constructor. Defined.

Lemma storeAfterSharedMeeting_cameras_only :
  CamerasOnly hasContentModality storeAfterSharedMeeting.
Proof.
  apply cameras_only_step
    with (store := storeAtLoad) (state := initialState)
         (state' := initialState)
         (action := UpdateVideoSources sharedMeetingSources).
  - intros r. constructor.
  - reflexivity.
Defined.

Lemma reducer_never_changes_threshold_witness :
  threshold (gridStateObjects storeAfterZoomIn 0%nat)
  = threshold (gridStateObjects storeAfterSharedMeeting 0%nat).
Proof.
  apply reducer_never_changes_threshold
    with (isContentShare := hasContentModality) (state := initialState)
         (state' := initialState) (action := ZoomIn).
  reflexivity.
Defined.

Lemma reducer_keeps_keyedById_witness :
  StoreKeyedById storeAfterSharedMeeting.
Proof.
  apply reducer_keeps_keyedById
    with (isContentShare := hasContentModality) (store := storeAtLoad)
         (state := initialState) (state' := initialState)
         (action := UpdateVideoSources sharedMeetingSources).
  - exact storeAtLoad_keyedById.
  - reflexivity.
Defined.

Lemma reducer_keeps_policy_current_witness :
  PolicyCurrent hasContentModality storeAfterRoster initialState.
Proof.
  apply reducer_keeps_policy_current
    with (store := storeAfterSharedMeeting)
         (action := UpdateAttendeeStates meetingRoster).
  - exact storeAfterSharedMeeting_cameras_only.
  - right. reflexivity.
  - reflexivity.
Defined.

Lemma ResetVideoGridState_resets_nothing_witness :
  initialState = initialState
  /\ dispatchAll hasContentModality storeAtLoad initialState
       ([UpdateVideoSources sharedMeetingSources] ++ [ResetVideoGridState])
     = Return (storeAfterSharedMeeting, initialState).
Proof.
  apply ResetVideoGridState_resets_nothing. reflexivity.
Defined.

Lemma reachable_invariants_witness :
  StoreKeyedById storeAfterRoster
  /\ CamerasOnly hasContentModality storeAfterRoster
  /\ (forall r, threshold (gridStateObjects storeAfterRoster r) = 8)
  /\ PolicyCurrent hasContentModality storeAfterRoster initialState.
Proof.
  apply reachable_invariants
    with (actions := [UpdateVideoSources sharedMeetingSources;
                      UpdateAttendeeStates meetingRoster]).
  reflexivity.
Defined.

Lemma UpdateVideoSources_cameraSources_witness :
  exists store',
    reducer hasContentModality storeAtLoad initialState
      (UpdateVideoSources sharedMeetingSources)
    = Return (store', initialState)
    /\ NoDup (cameraSources (videoSourceStateOf store' initialState))
    /\ (forall id,
           In id (cameraSources (videoSourceStateOf store' initialState))
           <-> In id (videoSourceIdsOf sharedMeetingSources)
               /\ hasContentModality id = false).
Proof.
  apply UpdateVideoSources_cameraSources. split; constructor.
Defined.

Lemma UpdateAttendeeStates_entry_witness :
  exists store' entry,
    reducer hasContentModality storeAfterSharedMeeting initialState
      (UpdateAttendeeStates meetingRoster)
    = Return (store', initialState)
    /\ get "b" (attendeeStatesOf store' initialState) = Some entry
    /\ name entry = ""
    /\ attendeeId entry = "b"
    /\ videoEnabled entry = true
    /\ bandwidthConstrained entry = false.
Proof.
  apply (UpdateAttendeeStates_entry hasContentModality storeAfterSharedMeeting
           initialState meetingRoster "b").
  simpl. tauto.
Defined.

Lemma PauseVideoTile_then_UnpauseVideoTile_witness :
  exists paused store' whilePaused afterwards,
    reducer hasContentModality storeAfterSharedMeeting initialState
      (PauseVideoTile "a")
    = Return (paused, initialState)
    /\ get "a" (attendeeStatesOf paused initialState) = Some whilePaused
    /\ bandwidthConstrained whilePaused = true
    /\ reducer hasContentModality paused initialState (UnpauseVideoTile "a")
       = Return (store', initialState)
    /\ dispatchAll hasContentModality storeAfterSharedMeeting initialState
         [PauseVideoTile "a"; UnpauseVideoTile "a"]
       = Return (store', initialState)
    /\ get "a" (attendeeStatesOf store' initialState) = Some afterwards
    /\ bandwidthConstrained afterwards = false
    /\ attendeeId afterwards = "a"
    /\ name afterwards = ""
    /\ videoEnabled afterwards = true
    /\ (forall k,
           k <> "a" ->
           get k (attendeeStatesOf store' initialState)
           = get k (attendeeStatesOf storeAfterSharedMeeting initialState))
    /\ keys (attendeeStatesOf store' initialState)
       = keys (attendeeStatesOf storeAfterSharedMeeting initialState)
    /\ gridStateOf store' initialState
       = gridStateOf storeAfterSharedMeeting initialState
    /\ videoSourceStateOf store' initialState
       = videoSourceStateOf storeAfterSharedMeeting initialState
    /\ chosenRemoteVideoSources store'
       = chosenRemoteVideoSources storeAfterSharedMeeting.
Proof.
  apply (PauseVideoTile_then_UnpauseVideoTile hasContentModality
           storeAfterSharedMeeting initialState "a"
           (attendee := {| attendeeId := "a"; name := "";
                           videoEnabled := true;
                           bandwidthConstrained := false |})).
  reflexivity.
Defined.

Lemma reducer_keeps_attendee_keys_witness :
  keys (attendeeStatesObjects storeAfterZoomIn 0%nat)
  = keys (attendeeStatesObjects storeAfterSharedMeeting 0%nat).
Proof.
  apply reducer_keeps_attendee_keys
    with (isContentShare := hasContentModality) (state := initialState)
         (state' := initialState) (action := ZoomIn).
  - reflexivity.
  - discriminate.
  - discriminate.
Defined.

Lemma reducer_quiet_cases_witness :
  chosenRemoteVideoSources storeAfterRoster
  = chosenRemoteVideoSources storeAfterSharedMeeting
  /\ (forall r,
         gridStateObjects storeAfterRoster r
         = gridStateObjects storeAfterSharedMeeting r)
  /\ (forall r,
         videoSourceStateObjects storeAfterRoster r
         = videoSourceStateObjects storeAfterSharedMeeting r).
Proof.
  apply reducer_quiet_cases
    with (isContentShare := hasContentModality) (state := initialState)
         (state' := initialState)
         (action := UpdateAttendeeStates meetingRoster).
  - reflexivity.
  - right. left. reflexivity.
Defined.

(** *** Channel messages *)

Lemma processChannelMessage_new_message_witness :
  processChannelMessage [sentMessage "m1" "hello"]
    (receivedMessage "m2" "world")
  = ([sentMessage "m1" "hello"],
     [sentMessage "m1" "hello"; receivedMessage "m2" "world"]).
Proof.
  apply (processChannelMessage_new_message (receivedMessage "m2" "world")
           [sentMessage "m1" "hello"]).
  intros m [<-|[]]. discriminate.
Defined.

Lemma processChannelMessage_no_stale_copy_witness :
  nth 0
    (snd (processChannelMessage
            [sentMessage "m1" "hello"; receivedMessage "m2" "world"]
            (receivedMessage "m1" "hello")))
    (receivedMessage "m2" "world")
  = receivedMessage "m1" "hello".
Proof.
  apply (processChannelMessage_no_stale_copy (receivedMessage "m1" "hello")
           [sentMessage "m1" "hello"; receivedMessage "m2" "world"]).
  - left. reflexivity.
  - reflexivity.
Defined.

Lemma processChannelMessage_idempotent_witness :
  processChannelMessage
    (snd (processChannelMessage [sentMessage "m1" "hello"]
            (receivedMessage "m2" "world")))
    (receivedMessage "m2" "world")
  = (snd (processChannelMessage [sentMessage "m1" "hello"]
            (receivedMessage "m2" "world")),
     snd (processChannelMessage [sentMessage "m1" "hello"]
            (receivedMessage "m2" "world"))).
Proof.
  apply processChannelMessage_idempotent. reflexivity.
Defined.

Lemma processChannelMessage_keeps_ids_distinct_witness :
  NoDup
    (map messageIdOf
       (snd (processChannelMessage
               [sentMessage "m1" "hello"; receivedMessage "m2" "world"]
               (receivedMessage "m3" "again")))).
Proof.
  apply processChannelMessage_keeps_ids_distinct.
  - repeat (constructor; [simpl; intuition discriminate|]). constructor.
  - reflexivity.
Defined.

(** ** The local source and the featured view *)

Section LocalSource.

Variable isContentShare : string -> bool.

(** What the UpdateLocalSourceState case writes. *)
Lemma UpdateLocalSourceState_written (store : Store) (state : State)
  (isVideoEnabled : bool) (localAttendeeId : option string)
  (isLocalUserSharing : bool) (sharingAttendeeId : option string) :
  exists store',
    reducer isContentShare store state
      (UpdateLocalSourceState isVideoEnabled localAttendeeId isLocalUserSharing
         sharingAttendeeId)
    = Return (store', state)
    /\ videoSourceStateOf store' state
       = setLocalSource isVideoEnabled isLocalUserSharing sharingAttendeeId
           (videoSourceStateOf store state)
    /\ keys (attendeeStatesOf store' state)
       = keys (attendeeStatesOf store state)
    /\ (forall k,
           get k (attendeeStatesOf store' state)
           = if match localAttendeeId with
                | Some id => negb (id =? "")%string && (k =? id)%string
                | None => false
                end
             then option_map (setVideoEnabled isVideoEnabled)
                    (get k (attendeeStatesOf store state))
             else get k (attendeeStatesOf store state))
    /\ gridStateOf store' state = gridStateOf store state
    /\ chosenRemoteVideoSources store'
       = Some (updateDownlinkPreferences isContentShare
                 (gridStateOf store' state) (videoSourceStateOf store' state)
                 (attendeeStatesOf store' state)).
Proof.
  unfold UpdateLocalSourceState, reducer, pushDownlinkPreferences,
    chooseRemoteVideoSources, videoSourceStateOf, attendeeStatesOf, gridStateOf.
  cbn [type payload Payload.isVideoEnabled Payload.localAttendeeId
       Payload.isLocalUserSharing Payload.sharingAttendeeId].
  cbn [Z.eqb VideoGridAction.ResetVideoGridState
       VideoGridAction.UpdateAttendeeStates VideoGridAction.UpdateVideoSources
       VideoGridAction.UpdateActiveSpeakers
       VideoGridAction.UpdateLocalSourceState Pos.eqb].
  destruct localAttendeeId as [id|]; cbn [truthy].
  - destruct (negb (id =? "")%string) eqn:Hid; cbn [andb].
    + destruct (has id (attendeeStatesObjects store (attendeeStates state)))
        eqn:Hhas; eexists; (split; [reflexivity|]); simpl;
        rewrite ?assign_same; repeat split.
      * apply keys_update.
      * intros k. rewrite get_update. reflexivity.
      * intros k. destruct (String.eqb_spec k id) as [->|_]; [|reflexivity].
        apply get_None_has in Hhas. now rewrite Hhas.
    + eexists. split; [reflexivity|]. simpl. rewrite ?assign_same.
      repeat split.
  - eexists. split; [reflexivity|]. simpl. rewrite ?assign_same.
    repeat split.
Qed.

(** X8: UpdateLocalSourceState returns with hasLocalVideo,
    hasLocalContentSharing and contentShareId as the action gives them, and
    with cameraSources and activeSpeakersWithCameraSource as they were.  Every
    entry keeps its key, attendeeId, name and bandwidthConstrained; its
    videoEnabled becomes the action's for the local attendee, when the id is
    neither null nor empty, and stays for every other entry.  The policy is
    given the preferences of the state so written. *)
Theorem UpdateLocalSourceState_effect (store : Store) (state : State)
  (isVideoEnabled : bool) (localAttendeeId : option string)
  (isLocalUserSharing : bool) (sharingAttendeeId : option string) :
  exists store',
    reducer isContentShare store state
      (UpdateLocalSourceState isVideoEnabled localAttendeeId isLocalUserSharing
         sharingAttendeeId)
    = Return (store', state)
    /\ hasLocalVideo (videoSourceStateOf store' state) = isVideoEnabled
    /\ hasLocalContentSharing (videoSourceStateOf store' state)
       = isLocalUserSharing
    /\ contentShareId (videoSourceStateOf store' state) = sharingAttendeeId
    /\ cameraSources (videoSourceStateOf store' state)
       = cameraSources (videoSourceStateOf store state)
    /\ activeSpeakersWithCameraSource (videoSourceStateOf store' state)
       = activeSpeakersWithCameraSource (videoSourceStateOf store state)
    /\ keys (attendeeStatesOf store' state)
       = keys (attendeeStatesOf store state)
    /\ (forall k before,
           get k (attendeeStatesOf store state) = Some before ->
           exists after,
             get k (attendeeStatesOf store' state) = Some after
             /\ attendeeId after = attendeeId before
             /\ name after = name before
             /\ bandwidthConstrained after = bandwidthConstrained before
             /\ videoEnabled after
                = if match localAttendeeId with
                     | Some id => negb (id =? "")%string && (k =? id)%string
                     | None => false
                     end
                  then isVideoEnabled
                  else videoEnabled before)
    /\ gridStateOf store' state = gridStateOf store state
    /\ chosenRemoteVideoSources store'
       = Some (updateDownlinkPreferences isContentShare
                 (gridStateOf store' state) (videoSourceStateOf store' state)
                 (attendeeStatesOf store' state)).
Proof.
  destruct (UpdateLocalSourceState_written store state isVideoEnabled
              localAttendeeId isLocalUserSharing sharingAttendeeId)
    as (store' & Hreturn & Hsources & Hkeys & Hget & Hgrid & Hpolicy).
  exists store'. split; [exact Hreturn|].
  do 5 (split; [rewrite Hsources; reflexivity|]).
  split; [exact Hkeys|]. split; [|split; [exact Hgrid | exact Hpolicy]].
  intros k before Hbefore. rewrite Hget, Hbefore.
  destruct (match localAttendeeId with
            | Some id => negb (id =? "")%string && (k =? id)%string
            | None => false
            end); simpl; eexists; repeat split.
Qed.

(** X3: In the featured view the selection reads neither the zoom nor the
    threshold. *)
Theorem featuredView_ignores_zoom (gridState : GridState)
  (videoSourceState : VideoSourceState) (attendeeStates : AttendeeStates)
  (zoomed : bool) (threshold' : Z) :
  mode gridState = FeaturedView ->
  calculateVideoSourcesToBeRendered isContentShare
    {| mode := FeaturedView; isZoomed := zoomed; threshold := threshold' |}
    videoSourceState attendeeStates
  = calculateVideoSourcesToBeRendered isContentShare gridState
      videoSourceState attendeeStates.
Proof.
  intros Hmode. unfold calculateVideoSourcesToBeRendered.
  now rewrite Hmode.
Qed.

End LocalSource.

Lemma featuredView_ignores_zoom_witness :
  calculateVideoSourcesToBeRendered hasContentModality
    {| mode := FeaturedView; isZoomed := true; threshold := 1 |}
    scenarioCVideoSourceState scenarioCAttendeeStates
  = calculateVideoSourcesToBeRendered hasContentModality scenarioCGridState
      scenarioCVideoSourceState scenarioCAttendeeStates.
Proof.
  apply featuredView_ignores_zoom. reflexivity.
Defined.
